(** * app-fitness: the tracking state, the weekly report request and the
      goal-progress calculator of [src/index.tsx]

    The development follows the component [App] of [src/index.tsx]:

    - [JSNumber]: the ECMAScript number operations the handlers use
      ([parseFloat], comparisons, [Math.abs], [Math.min], [Math.max],
      [toFixed]); a finite Number is the rational it denotes, and [round]
      takes an exact result to the binary64 value the script computes;
      [Binary64] is the same arithmetic on the bit-level representation;
    - the data model ([DailyFoodLog], [DailyLog], [Metrics], [UserProfile])
      and the object store that holds the day objects, so that the sharing
      between [initialWeeklyLog], the [weeklyLog] state and the arrays built
      by the handlers is visible;
    - the event handlers [handleLogChange], [handleFoodChange],
      [handleMetricsChange], [handleNewWeek] and the asynchronous
      [generateSummary];
    - [calculateProgress] and the selection of the current weight at its two
      call sites. *)

From Stdlib Require Import ZArith QArith Qabs Qminmax Qround Qreduction Qpower.
From Stdlib Require Import Lqa Lia.
From Stdlib Require Import Ascii String DecimalString.
From Stdlib Require SpecFloat.
From stdpp Require Import base option list strings gmap.

Local Open Scope string_scope.

(** ** ECMAScript numbers *)

Module JSNumber.

(** A Number value.  A finite value is kept as the rational it denotes; the
    sign of a zero is not represented.  [add], [sub], [mul] and [div] below
    give the exact result of an operation, and [round] the binary64 value the
    script computes from it. *)
Inductive number : Type :=
  | NaN
  | Inf (negative : bool)
  | Num (q : Q).

(** Three-way comparison; [None] when an operand is [NaN]. *)
Definition compare (a b : number) : option comparison :=
  match a, b with
  | NaN, _ | _, NaN => None
  | Inf s, Inf t =>
      Some (match s, t with
            | true, false => Lt
            | false, true => Gt
            | _, _ => Eq
            end)
  | Inf s, Num _ => Some (if s then Lt else Gt)
  | Num _, Inf t => Some (if t then Gt else Lt)
  | Num p, Num q => Some (p ?= q)%Q
  end.

(** [a < b], [a > b], [a <= b], [a >= b] and [a === b] on Numbers. *)
Definition lt (a b : number) : bool :=
  match compare a b with Some Lt => true | _ => false end.
Definition gt (a b : number) : bool := lt b a.
Definition le (a b : number) : bool :=
  match compare a b with Some Lt | Some Eq => true | _ => false end.
Definition ge (a b : number) : bool := le b a.
Definition strict_eq (a b : number) : bool :=
  match compare a b with Some Eq => true | _ => false end.

(** ToBoolean of a Number: [NaN] and zero are falsy. *)
Definition truthy (a : number) : bool :=
  match a with
  | NaN => false
  | Inf _ => true
  | Num q => negb (Qeq_bool q 0)
  end.

Definition zero : number := Num 0.

Definition neg (a : number) : number :=
  match a with
  | NaN => NaN
  | Inf s => Inf (negb s)
  | Num q => Num (- q)
  end.

Definition add (a b : number) : number :=
  match a, b with
  | NaN, _ | _, NaN => NaN
  | Inf s, Inf t => if Bool.eqb s t then Inf s else NaN
  | Inf s, Num _ => Inf s
  | Num _, Inf t => Inf t
  | Num p, Num q => Num (p + q)
  end.

Definition sub (a b : number) : number := add a (neg b).

Definition abs (a : number) : number :=
  match a with
  | NaN => NaN
  | Inf _ => Inf false
  | Num q => Num (Qabs q)
  end.

Definition is_neg (q : Q) : bool :=
  match (q ?= 0)%Q with Lt => true | _ => false end.

Definition mul (a b : number) : number :=
  match a, b with
  | NaN, _ | _, NaN => NaN
  | Inf s, Inf t => Inf (xorb s t)
  | Inf s, Num q | Num q, Inf s =>
      if Qeq_bool q 0 then NaN else Inf (xorb s (is_neg q))
  | Num p, Num q => Num (p * q)
  end.

(** Division.  A zero divisor is taken as [+0]. *)
Definition div (a b : number) : number :=
  match a, b with
  | NaN, _ | _, NaN => NaN
  | Inf _, Inf _ => NaN
  | Inf s, Num q => Inf (xorb s (is_neg q))
  | Num _, Inf _ => Num 0
  | Num p, Num q =>
      if Qeq_bool q 0
      then (if Qeq_bool p 0 then NaN else Inf (is_neg p))
      else Num (p / q)
  end.

(** [Math.min] and [Math.max] of two arguments. *)
Definition min (a b : number) : number :=
  match compare a b with
  | None => NaN
  | Some Gt => b
  | Some _ => a
  end.

Definition max (a b : number) : number :=
  match compare a b with
  | None => NaN
  | Some Lt => b
  | Some _ => a
  end.

(** *** Rounding to binary64

    A finite Number is a binary64 value: an integer of at most 53 bits times
    a power of two, the least exponent being -1074.  Every arithmetic
    operation of the script, and [parseFloat], gives the binary64 value
    nearest to the exact result, the one with the even significand when two
    are as near, and an infinity when that value would be 2^1024 or more.
    The sign of a zero is not represented. *)

(** The exponent [e] with [2^e <= q < 2^(e+1)], for [q > 0]. *)
Definition ilog2 (q : Q) : Z :=
  let l := (Z.log2 (Qnum q) - Z.log2 (Zpos (Qden q)))%Z in
  if Qle_bool (2 ^ l)%Q q then l else (l - 1)%Z.

(** The integer nearest to [x], the even one of two. *)
Definition nearest_even (x : Q) : Z :=
  let f := Qfloor x in
  match (x - inject_Z f ?= 1 # 2)%Q with
  | Lt => f
  | Gt => (f + 1)%Z
  | Eq => if Z.even f then f else (f + 1)%Z
  end.

(** The exponent of the last bit of the binary64 values around [q > 0]. *)
Definition ulp_exponent (q : Q) : Z := (Z.max (ilog2 q) (-1022) - 52)%Z.

(** The multiple of the last bit nearest to [q > 0]. *)
Definition round_value (q : Q) : Q :=
  (inject_Z (nearest_even (q * 2 ^ (- ulp_exponent q))) * 2 ^ ulp_exponent q)%Q.

Definition round_pos (q : Q) : number :=
  if Qle_bool (2 ^ 1024)%Q (round_value q) then Inf false
  else Num (Qred (round_value q)).

Definition round (q : Q) : number :=
  match (q ?= 0)%Q with
  | Eq => Num 0
  | Gt => round_pos q
  | Lt => neg (round_pos (- q))
  end.

(** A rational that is a binary64 value. *)
Definition representable (q : Q) : bool :=
  match round q with
  | Num r => Qeq_bool r q
  | _ => false
  end.

(** The result of an operation, from its exact result. *)
Definition rounded (x : number) : number :=
  match x with
  | Num q => round q
  | _ => x
  end.

(** *** Decimal digits *)

Definition digit_of (c : ascii) : option Z :=
  let n := Z.of_N (N_of_ascii c) in
  if ((48 <=? n) && (n <=? 57))%Z then Some (n - 48)%Z else None.

(** The longest run of decimal digits at the head of a string: its value,
    its length and the rest of the string. *)
Fixpoint digits (acc : Z) (len : nat) (s : string) : Z * nat * string :=
  match s with
  | String c r =>
      match digit_of c with
      | Some d => digits (10 * acc + d)%Z (S len) r
      | None => (acc, len, s)
      end
  | EmptyString => (acc, len, s)
  end.

Definition pow10 (e : Z) : Q :=
  match e with
  | Zneg p => / inject_Z (10 ^ Zpos p)
  | _ => inject_Z (10 ^ e)
  end.

(** *** parseFloat *)

(** StrWhiteSpaceChar, on the UTF-8 bytes of the string: TAB, LF, VT, FF, CR,
    SP, and the encodings of U+00A0, U+1680, U+2000..U+200A, U+2028, U+2029,
    U+202F, U+205F, U+3000 and U+FEFF. *)
Fixpoint trimStart (s : string) : string :=
  match s with
  | String c r =>
      let n := N_of_ascii c in
      if ((9 <=? n) && (n <=? 13) || (n =? 32))%N then trimStart r
      else
        match r with
        | String c2 r2 =>
            let n2 := N_of_ascii c2 in
            if ((n =? 194) && (n2 =? 160))%N then trimStart r2
            else
              match r2 with
              | String c3 r3 =>
                  let n3 := N_of_ascii c3 in
                  if ((n =? 225) && (n2 =? 154) && (n3 =? 128)
                      || (n =? 226) && (n2 =? 128)
                           && ((128 <=? n3) && (n3 <=? 138)
                               || (n3 =? 168) || (n3 =? 169) || (n3 =? 175))
                      || (n =? 226) && (n2 =? 129) && (n3 =? 159)
                      || (n =? 227) && (n2 =? 128) && (n3 =? 128)
                      || (n =? 239) && (n2 =? 187) && (n3 =? 191))%N
                  then trimStart r3
                  else s
              | EmptyString => s
              end
        | EmptyString => s
        end
  | EmptyString => s
  end.

Fixpoint starts_with (p s : string) : bool :=
  match p, s with
  | EmptyString, _ => true
  | String a p', String b s' => if Ascii.eqb a b then starts_with p' s' else false
  | String _ _, EmptyString => false
  end.

(** An optional sign at the head of a string: whether it is [-], and the
    rest. *)
Definition strip_sign (s : string) : bool * string :=
  match s with
  | String c r =>
      if Ascii.eqb c "+" then (false, r)
      else if Ascii.eqb c "-" then (true, r)
      else (false, s)
  | EmptyString => (false, s)
  end.

(** The rest of a string that begins with a decimal point. *)
Definition after_point (s : string) : option string :=
  match s with
  | String c r => if Ascii.eqb c "." then Some r else None
  | EmptyString => None
  end.

(** ExponentPart_opt at the head of [s]: the exponent, 0 when there is no
    well-formed exponent part. *)
Definition exponent (s : string) : Z :=
  match s with
  | String c r =>
      if (Ascii.eqb c "e" || Ascii.eqb c "E")%bool then
        let '(negative, r') := strip_sign r in
        let '(v, len, _) := digits 0 0 r' in
        match len with
        | O => 0%Z
        | S _ => if negative then (- v)%Z else v
        end
      else 0%Z
  | EmptyString => 0%Z
  end.

(** StrUnsignedDecimalLiteral: the value of the longest prefix of [s] that is
    one, if there is one.  The literal is [Infinity], or digits with an
    optional fraction, or a point followed by digits, each of the last two
    with an optional exponent part. *)
Definition unsigned_literal (s : string) : option number :=
  if starts_with "Infinity" s then Some (Inf false)
  else
    let '(ip, ilen, r1) := digits 0 0 s in
    let '(m, flen, r2) :=
      match after_point r1 with
      | Some r =>
          let '(m, flen, r2) := digits ip 0 r in
          match ilen, flen with
          | O, O => (ip, O, r1)
          | _, _ => (m, flen, r2)
          end
      | None => (ip, O, r1)
      end in
    match ilen, flen with
    | O, O => None
    | _, _ => Some (round (inject_Z m * pow10 (exponent r2 - Z.of_nat flen)))
    end.

(** [parseFloat(string)]: leading white space is skipped, the longest prefix
    that is a StrDecimalLiteral is read, and the result is [NaN] when there
    is none. *)
Definition parseFloat (s : string) : number :=
  let '(negative, u) := strip_sign (trimStart s) in
  match unsigned_literal u with
  | Some v => if negative then neg v else v
  | None => NaN
  end.

(** *** toFixed *)

Definition decimal_of_Z (n : Z) : string :=
  NilZero.string_of_uint (N.to_uint (Z.to_N n)).

Fixpoint zeros (k : nat) : string :=
  match k with
  | O => ""
  | S k' => String "0" (zeros k')
  end.

Section ToString.

(** Number::toString, the conversion behind template literals and behind
    [toFixed] for values that are not finite or are at least 10^21.  It
    prints the shortest decimal that reads back as the same binary64 value,
    which the rational model cannot express; it is a parameter. *)
Variable NumberToString : number -> string.

(** [x.toFixed(f)], ECMAScript Number.prototype.toFixed: the integer [n]
    with [n / 10^f] nearest to [|x|] (the larger on a tie), printed with [f]
    digits after the point. *)
Definition toFixed (x : number) (f : nat) : string :=
  match x with
  | Num q =>
      let s := if is_neg q then "-" else "" in
      let a := Qabs q in
      if Qle_bool (inject_Z (10 ^ 21)) a then s ++ NumberToString (Num a)
      else
        let n := Qfloor (a * inject_Z (10 ^ Z.of_nat f) + (1 # 2)) in
        let m := decimal_of_Z n in
        match f with
        | O => s ++ m
        | S _ =>
            let k := String.length m in
            let m' := if (k <=? f)%nat then zeros (f + 1 - k) ++ m else m in
            let k' := String.length m' in
            s ++ substring 0 (k' - f) m' ++ "." ++ substring (k' - f) f m'
        end
  | _ => NumberToString x
  end.

End ToString.

End JSNumber.

Import JSNumber.

(** ** Readings of Number arithmetic

    [calculateProgress] is written once, over the operations below.
    [rounded_ops] is the arithmetic of the script on [JSNumber.number]: every
    subtraction, product and quotient is rounded to binary64.
    [binary64_ops] is the same arithmetic on the sign, significand and
    exponent of a binary64 value, as the Standard Library specifies it; it
    is used to evaluate.  [exact_ops] is the arithmetic of the real numbers,
    without rounding, in which the specification states its properties. *)

Class NumberOps (N : Type) : Type := {
  (** an integer literal *)
  num_lit : Z → N;
  (** [===], [>], [>=], [<=] *)
  num_eq : N → N → bool;
  num_gt : N → N → bool;
  num_ge : N → N → bool;
  num_le : N → N → bool;
  (** [-], [*], [/] *)
  num_sub : N → N → N;
  num_mul : N → N → N;
  num_div : N → N → N;
  (** [Math.abs], [Math.min], [Math.max] *)
  num_abs : N → N;
  num_min : N → N → N;
  num_max : N → N → N;
  (** the mathematical value, which [toFixed] prints *)
  num_value : N → number }.

#[export] Instance exact_ops : NumberOps number := {|
  num_lit z := Num (inject_Z z);
  num_eq := strict_eq;
  num_gt := gt;
  num_ge := ge;
  num_le := le;
  num_sub := sub;
  num_mul := mul;
  num_div := div;
  num_abs := abs;
  num_min := min;
  num_max := max;
  num_value x := x |}.

(** In [calculateProgress] every divisor is the result of [Math.abs], and in
    [handleShareSummary] the literal 100, so that the sign of a zero, which
    [JSNumber.number] does not have, is never looked at. *)
Definition rounded_ops : NumberOps number := {|
  num_lit z := round (inject_Z z);
  num_eq := strict_eq;
  num_gt := gt;
  num_ge := ge;
  num_le := le;
  num_sub a b := rounded (sub a b);
  num_mul a b := rounded (mul a b);
  num_div a b := rounded (div a b);
  num_abs := abs;
  num_min := min;
  num_max := max;
  num_value x := x |}.

Module Binary64.

Import SpecFloat.

Definition prec : Z := 53.
Definition emax : Z := 1024.

(** The binary64 value of an integer. *)
Definition of_Z (n : Z) : spec_float := binary_normalize prec emax n 0 false.

(** [Math.min] and [Math.max]: [NaN] when an argument is, and [-0] below
    [+0]. *)
Definition min (a b : spec_float) : spec_float :=
  match SFcompare a b with
  | None => S754_nan
  | Some Gt => b
  | Some Lt => a
  | Some Eq =>
      match a, b with
      | S754_zero sa, S754_zero sb => S754_zero (sa || sb)
      | _, _ => a
      end
  end.

Definition max (a b : spec_float) : spec_float :=
  match SFcompare a b with
  | None => S754_nan
  | Some Lt => b
  | Some Gt => a
  | Some Eq =>
      match a, b with
      | S754_zero sa, S754_zero sb => S754_zero (sa && sb)
      | _, _ => a
      end
  end.

(** The exact value of a binary64 number. *)
Definition value (x : spec_float) : number :=
  match x with
  | S754_zero _ => Num 0
  | S754_infinity s => Inf s
  | S754_nan => NaN
  | S754_finite s m e =>
      let v :=
        match e with
        | Zneg k => Qmake (Zpos m) (2 ^ k)
        | _ => inject_Z (Zpos m * 2 ^ e)
        end in
      Num (if s then - v else v)
  end.

End Binary64.

#[export] Instance binary64_ops : NumberOps SpecFloat.spec_float := {|
  num_lit := Binary64.of_Z;
  num_eq := SpecFloat.SFeqb;
  num_gt a b := SpecFloat.SFltb b a;
  num_ge a b := SpecFloat.SFleb b a;
  num_le := SpecFloat.SFleb;
  num_sub := SpecFloat.SFsub Binary64.prec Binary64.emax;
  num_mul := SpecFloat.SFmul Binary64.prec Binary64.emax;
  num_div := SpecFloat.SFdiv Binary64.prec Binary64.emax;
  num_abs := SpecFloat.SFabs;
  num_min := Binary64.min;
  num_max := Binary64.max;
  num_value := Binary64.value |}.

(** ** Data model (the interfaces of [src/index.tsx]) *)

Inductive ActivityLevel : Type :=
  | Sedentario
  | Ligero
  | Moderado
  | Activo
  | MuyActivo.

(** The string each member of the union type stands for. *)
Definition ActivityLevel_text (a : ActivityLevel) : string :=
  match a with
  | Sedentario => "Sedentario"
  | Ligero => "Ligero"
  | Moderado => "Moderado"
  | Activo => "Activo"
  | MuyActivo => "Muy Activo"
  end.

(** The fields have the types the interface declares. *)
Record UserProfile : Type := mkUserProfile {
  name : string;
  age : number;
  objective : string;
  initialWeight : number;
  weightGoal : number }.

Record DailyFoodLog : Type := mkDailyFoodLog {
  breakfast : string;
  lunch : string;
  snack : string;
  dinner : string;
  other : string }.

Record DailyLog : Type := mkDailyLog {
  weight : number;
  food : DailyFoodLog;
  mood : string;
  activityLevel : ActivityLevel }.

Record Metrics : Type := mkMetrics {
  strength : string;
  measurements : string;
  bmi : string;
  dailyActivity : string }.

Record Summary : Type := mkSummary { content : string }.

Definition dayNames : list string :=
  ["Lunes"; "Martes"; "Miércoles"; "Jueves"; "Viernes"; "Sábado"; "Domingo"].

Definition initialDailyLog : DailyLog :=
  {| weight := zero;
     food := {| breakfast := ""; lunch := ""; snack := ""; dinner := ""; other := "" |};
     mood := "";
     activityLevel := Moderado |}.

Definition initialMetrics : Metrics :=
  {| strength := ""; measurements := ""; bmi := ""; dailyActivity := "" |}.

(** ** The object store

    A [DailyLog] is a JavaScript object: two arrays can hold the same day
    object, and an assignment to one of its properties is seen through both.
    The day objects live in a store and arrays hold their addresses.  An
    address is the position of the object in the store; a new object is
    appended.

    A [DailyFoodLog] object is never assigned to after it is built (the
    handlers only replace the [food] property of a day by a new object), and
    an array is only assigned to between its creation by [[...weeklyLog]] and
    its hand-over to [setWeeklyLog]; both are kept as plain values. *)

Abbreviation loc := nat (only parsing).
Abbreviation store := (list DailyLog) (only parsing).

(** [Array(7).fill(null).map(() => ({ ...initialDailyLog, food: {...} }))]:
    seven distinct day objects, at the addresses 0 to 6 of the store the
    module starts with. *)
Definition initialStore : store := replicate 7 initialDailyLog.
Definition initialWeeklyLog : list loc := seq 0 7.

(** The days an array of addresses denotes in a store. *)
Definition deref (σ : store) (a : list loc) : list DailyLog :=
  omap (λ l, σ !! l) a.

(** ** Component state (the [useState] and [useStickyState] cells of [App])

    [view], [activeTab] and [errors] only drive the markup and are left
    out. *)

Record AppState : Type := mkAppState {
  objects : store;
  profile : option UserProfile;
  weeklyLog : list loc;
  metrics : Metrics;
  currentDayIndex : nat;
  summary : option Summary;
  loading : bool }.

Definition days (st : AppState) : list DailyLog :=
  deref (objects st) (weeklyLog st).

(** [useStickyState]: a cell starts from the value stored under its key,
    parsed by [JSON.parse] into new objects, and from its default when the
    key is absent. *)
Definition boot (p : option UserProfile) (w : option (list DailyLog))
    (m : option Metrics) : AppState :=
  {| objects := (initialStore ++ default [] w)%list;
     profile := p;
     weeklyLog :=
       match w with
       | Some ds => seq (length initialStore) (length ds)
       | None => initialWeeklyLog
       end;
     metrics := default initialMetrics m;
     currentDayIndex := 0;
     summary := None;
     loading := false |}.

Definition freshInstall : AppState := boot None None None.

(** ** Event handlers *)

(** The [name] and [value] of the change events [handleLogChange] is bound
    to: the weight input, the mood textarea and the activity-level select,
    whose options are the five members of [ActivityLevel]. *)
Inductive LogChange : Type :=
  | ChangeWeight (value : string)
  | ChangeMood (value : string)
  | ChangeActivityLevel (value : ActivityLevel).

Inductive FoodField : Type := Breakfast | Lunch | Snack | Dinner | Other.

Inductive MetricsField : Type := Strength | Measurements | Bmi | DailyActivity.

(** [{ ...day, [name]: name === 'weight' ? parseFloat(value) : value }] *)
Definition mergeLogChange (e : LogChange) (day : DailyLog) : DailyLog :=
  match e with
  | ChangeWeight value =>
      {| weight := parseFloat value; food := food day; mood := mood day;
         activityLevel := activityLevel day |}
  | ChangeMood value =>
      {| weight := weight day; food := food day; mood := value;
         activityLevel := activityLevel day |}
  | ChangeActivityLevel value =>
      {| weight := weight day; food := food day; mood := mood day;
         activityLevel := value |}
  end.

(** [{ ...food, [name]: value }] *)
Definition mergeFood (f : FoodField) (value : string) (fd : DailyFoodLog)
    : DailyFoodLog :=
  match f with
  | Breakfast =>
      {| breakfast := value; lunch := lunch fd; snack := snack fd;
         dinner := dinner fd; other := other fd |}
  | Lunch =>
      {| breakfast := breakfast fd; lunch := value; snack := snack fd;
         dinner := dinner fd; other := other fd |}
  | Snack =>
      {| breakfast := breakfast fd; lunch := lunch fd; snack := value;
         dinner := dinner fd; other := other fd |}
  | Dinner =>
      {| breakfast := breakfast fd; lunch := lunch fd; snack := snack fd;
         dinner := value; other := other fd |}
  | Other =>
      {| breakfast := breakfast fd; lunch := lunch fd; snack := snack fd;
         dinner := dinner fd; other := value |}
  end.

Definition setFood (fd : DailyFoodLog) (day : DailyLog) : DailyLog :=
  {| weight := weight day; food := fd; mood := mood day;
     activityLevel := activityLevel day |}.

(** [{ ...prev, [name]: value }] *)
Definition mergeMetrics (f : MetricsField) (value : string) (m : Metrics)
    : Metrics :=
  match f with
  | Strength =>
      {| strength := value; measurements := measurements m; bmi := bmi m;
         dailyActivity := dailyActivity m |}
  | Measurements =>
      {| strength := strength m; measurements := value; bmi := bmi m;
         dailyActivity := dailyActivity m |}
  | Bmi =>
      {| strength := strength m; measurements := measurements m; bmi := value;
         dailyActivity := dailyActivity m |}
  | DailyActivity =>
      {| strength := strength m; measurements := measurements m; bmi := bmi m;
         dailyActivity := value |}
  end.

(** [handleLogChange]: the array is copied, a new day object is built from
    the current one and put at [currentDayIndex] of the copy, and the copy
    becomes the state.  The day object the old array holds is not touched.

    [None] stands for an index with no day behind it, where the script
    would store an object without the other [DailyLog] properties. *)
Definition handleLogChange (e : LogChange) (st : AppState) : option AppState :=
  l ← weeklyLog st !! currentDayIndex st;
  day ← objects st !! l;
  Some {| objects := (objects st ++ [mergeLogChange e day])%list;
          profile := profile st;
          weeklyLog := <[currentDayIndex st := length (objects st)]> (weeklyLog st);
          metrics := metrics st;
          currentDayIndex := currentDayIndex st;
          summary := summary st;
          loading := loading st |}.

(** [handleFoodChange]: the array is copied, but the day object at
    [currentDayIndex] of the copy is the one the old array holds, and its
    [food] property is assigned to.

    [None] stands for an index with no day behind it, where reading [.food]
    throws. *)
Definition handleFoodChange (f : FoodField) (value : string) (st : AppState)
    : option AppState :=
  l ← weeklyLog st !! currentDayIndex st;
  day ← objects st !! l;
  Some {| objects := <[l := setFood (mergeFood f value (food day)) day]> (objects st);
          profile := profile st;
          weeklyLog := weeklyLog st;
          metrics := metrics st;
          currentDayIndex := currentDayIndex st;
          summary := summary st;
          loading := loading st |}.

Definition handleMetricsChange (f : MetricsField) (value : string)
    (st : AppState) : AppState :=
  {| objects := objects st;
     profile := profile st;
     weeklyLog := weeklyLog st;
     metrics := mergeMetrics f value (metrics st);
     currentDayIndex := currentDayIndex st;
     summary := summary st;
     loading := loading st |}.

(** [handleNewWeek]; [confirmed] is the answer of [window.confirm].  The
    state receives the module-level array [initialWeeklyLog] itself. *)
Definition handleNewWeek (confirmed : bool) (st : AppState) : AppState :=
  if confirmed then
    {| objects := objects st;
       profile := profile st;
       weeklyLog := initialWeeklyLog;
       metrics := initialMetrics;
       currentDayIndex := 0;
       summary := None;
       loading := loading st |}
  else st.

(** The day navigation buttons: [setCurrentDayIndex(p => Math.max(0, p - 1))]
    and [setCurrentDayIndex(p => Math.min(6, p + 1))]. *)
Definition setCurrentDayIndex (f : nat → nat) (st : AppState) : AppState :=
  {| objects := objects st;
     profile := profile st;
     weeklyLog := weeklyLog st;
     metrics := metrics st;
     currentDayIndex := f (currentDayIndex st);
     summary := summary st;
     loading := loading st |}.

Definition previousDay : AppState → AppState :=
  setCurrentDayIndex (λ p, Nat.max 0 (p - 1)).
Definition nextDay : AppState → AppState :=
  setCurrentDayIndex (λ p, Nat.min 6 (p + 1)).

(** [setProfile].  The profile form and [handleProfileChange] are not
    modelled: the event carries the profile as the interface [UserProfile]
    types it. *)
Definition setProfile (p : UserProfile) (st : AppState) : AppState :=
  {| objects := objects st;
     profile := Some p;
     weeklyLog := weeklyLog st;
     metrics := metrics st;
     currentDayIndex := currentDayIndex st;
     summary := summary st;
     loading := loading st |}.

(** What the user can do while the tracker is shown. *)
Inductive event : Type :=
  | EvLogChange (e : LogChange)
  | EvFoodChange (f : FoodField) (value : string)
  | EvMetricsChange (f : MetricsField) (value : string)
  | EvNewWeek (confirmed : bool)
  | EvPreviousDay
  | EvNextDay
  | EvSetProfile (p : UserProfile).

Definition handle (ev : event) (st : AppState) : option AppState :=
  match ev with
  | EvLogChange e => handleLogChange e st
  | EvFoodChange f value => handleFoodChange f value st
  | EvMetricsChange f value => Some (handleMetricsChange f value st)
  | EvNewWeek confirmed => Some (handleNewWeek confirmed st)
  | EvPreviousDay => Some (previousDay st)
  | EvNextDay => Some (nextDay st)
  | EvSetProfile p => Some (setProfile p st)
  end.

Fixpoint run (evs : list event) (st : AppState) : option AppState :=
  match evs with
  | [] => Some st
  | ev :: evs' => st' ← handle ev st; run evs' st'
  end.

(** ** The weekly report request *)

(** ToBoolean of a string: only the empty string is falsy. *)
Definition nonempty (s : string) : bool :=
  match s with
  | EmptyString => false
  | String _ _ => true
  end.

(** [Object.values(day.food)] and [Object.values(metrics)], in property
    order. *)
Definition foodValues (f : DailyFoodLog) : list string :=
  [breakfast f; lunch f; snack f; dinner f; other f].

Definition metricsValues (m : Metrics) : list string :=
  [strength m; measurements m; bmi m; dailyActivity m].

(** The predicate of [weeklyLog.some(...)] in [generateSummary]:
    [day.weight > 0 || Object.values(day.food).some(f => f) || day.mood]. *)
Definition dayHasData (day : DailyLog) : bool :=
  gt (weight day) zero || existsb nonempty (foodValues (food day))
  || nonempty (mood day).

Definition hasData (log : list DailyLog) (m : Metrics) : bool :=
  existsb dayHasData log || existsb nonempty (metricsValues m).

Definition nl : string := String (ascii_of_nat 10) "".

(** ** The progress calculator *)

Record Progress (N : Type) : Type := mkProgress {
  progress : N;
  progressText : string }.

Arguments mkProgress {N} _ _.
Arguments progress {N} _.
Arguments progressText {N} _.

Section CalculateProgress.

(** Number::toString (see [JSNumber.toFixed]). *)
Variable NumberToString : number → string.

Context {N : Type} {ops : NumberOps N}.

Definition calculateProgress (initial current goal : N) : Progress N :=
  if num_eq initial goal then
    {| progress := num_lit 100; progressText := "¡Ya estás en tu peso meta!" |}
  else
    let totalDistance := num_abs (num_sub goal initial) in
    let distanceCovered :=
      if num_gt goal initial then num_sub current initial
      else num_sub initial current in
    let progress0 := num_mul (num_div distanceCovered totalDistance) (num_lit 100) in
    let progress1 := num_max (num_lit 0) (num_min progress0 (num_lit 100)) in
    let fixed x := toFixed NumberToString (num_value x) 2 in
    let diff := num_abs (num_sub current goal) in
    let text :=
      if num_gt goal initial then
        if num_ge current goal then
          "¡Felicidades! Has alcanzado y superado tu meta por "
          ++ fixed (num_abs (num_sub current goal)) ++ " kg."
        else if num_ge current initial then
          "Has ganado " ++ fixed (num_abs (num_sub current initial))
          ++ " kg. ¡Te faltan " ++ fixed diff ++ " kg para tu meta!"
        else
          "Has perdido " ++ fixed (num_abs (num_sub current initial))
          ++ " kg. Estás a " ++ fixed diff ++ " kg de tu meta."
      else
        if num_le current goal then
          "¡Felicidades! Has alcanzado y superado tu meta por "
          ++ fixed (num_abs (num_sub current goal)) ++ " kg."
        else if num_le current initial then
          "Has perdido " ++ fixed (num_abs (num_sub initial current))
          ++ " kg. ¡Te faltan " ++ fixed diff ++ " kg para tu meta!"
        else
          "Has ganado " ++ fixed (num_abs (num_sub current initial))
          ++ " kg. Estás a " ++ fixed diff ++ " kg de tu meta."
    in
    {| progress := progress1; progressText := text |}.

End CalculateProgress.

(** The binary64 value nearest to a rational whose numerator and
    denominator are binary64 values, or to an integer. *)
Definition binary64_of (q : Q) : SpecFloat.spec_float :=
  SpecFloat.SFdiv Binary64.prec Binary64.emax
    (Binary64.of_Z (Qnum q)) (Binary64.of_Z (Zpos (Qden q))).

Definition same_number (a b : number) : bool :=
  match a, b with
  | NaN, NaN => true
  | _, _ => strict_eq a b
  end.

(** Whether [rounded_ops] and [binary64_ops] give the same progress and the
    same sentence on three weights. *)
Definition same_result (weights : Q * Q * Q) : bool :=
  let '(i, c, g) := weights in
  let r := calculateProgress (λ _, "?") (ops := rounded_ops)
             (round i) (round c) (round g) in
  let b := calculateProgress (λ _, "?")
             (binary64_of i) (binary64_of c) (binary64_of g) in
  same_number (progress r) (Binary64.value (progress b))
  && bool_decide (progressText r = progressText b).

(** Whether the operations of [rounded_ops] and of [binary64_ops] agree on a
    pair of binary64 values. *)
Definition same_operations (xy : SpecFloat.spec_float * SpecFloat.spec_float)
    : bool :=
  let '(x, y) := xy in
  let a := Binary64.value x in
  let b := Binary64.value y in
  match a with Num q => representable q | _ => true end
  && same_number (num_sub (NumberOps := rounded_ops) a b)
       (Binary64.value (num_sub x y))
  && same_number (num_mul (NumberOps := rounded_ops) a b)
       (Binary64.value (num_mul x y))
  && same_number (num_div (NumberOps := rounded_ops) a b)
       (Binary64.value (num_div x y))
  && same_number (num_abs (NumberOps := rounded_ops) a)
       (Binary64.value (num_abs x))
  && same_number (num_min (NumberOps := rounded_ops) a b)
       (Binary64.value (num_min x y))
  && same_number (num_max (NumberOps := rounded_ops) a b)
       (Binary64.value (num_max x y))
  && Bool.eqb (num_eq (NumberOps := rounded_ops) a b) (num_eq x y)
  && Bool.eqb (num_gt (NumberOps := rounded_ops) a b) (num_gt x y)
  && Bool.eqb (num_ge (NumberOps := rounded_ops) a b) (num_ge x y)
  && Bool.eqb (num_le (NumberOps := rounded_ops) a b) (num_le x y).

(** A linear congruential generator, for sample values. *)
Definition lcg (s : Z) : Z :=
  ((6364136223846793005 * s + 1442695040888963407) mod 2 ^ 64)%Z.

(** A binary64 value from a seed and an exponent: a significand of up to 53
    bits, of either sign. *)
Definition sample_value (s e : Z) : SpecFloat.spec_float :=
  let m := (s mod 2 ^ 53)%Z in
  SpecFloat.binary_normalize Binary64.prec Binary64.emax
    (if Z.odd (s / 2 ^ 60) then (- m)%Z else m) e false.

(** Pairs of binary64 values over the whole range of exponents, the second
    within a few binades of the first or anywhere in the range. *)
Fixpoint sample_pairs (n : nat) (s : Z)
    : list (SpecFloat.spec_float * SpecFloat.spec_float) :=
  match n with
  | O => []
  | S n' =>
      let s1 := lcg s in
      let s2 := lcg s1 in
      let e := ((s1 / 2 ^ 40) mod 2040 - 1090)%Z in
      let e' :=
        if Z.odd (s2 / 2 ^ 50) then (e + (s2 / 2 ^ 40) mod 7 - 3)%Z
        else ((s2 / 2 ^ 40) mod 2040 - 1090)%Z in
      (sample_value s1 e, sample_value s2 e') :: sample_pairs n' s2
  end.


Section Report.

(** Number::toString (see [JSNumber.toFixed]). *)
Variable NumberToString : number → string.

(** The last part of the template literal, from the line
    [INSTRUCCIONES PARA EL INFORME:] to its end: a fixed text with no
    interpolation. *)
Variable instructions : string.

(** [s || fallback] for a string and for a number inside a template. *)
Definition orText (s fallback : string) : string :=
  if nonempty s then s else fallback.

Definition orNumber (n : option number) (fallback : string) : string :=
  match n with
  | Some v => if truthy v then NumberToString v else fallback
  | None => fallback
  end.

(** The elements of the array literal of a day are [false] (here [None]) or
    a string; [filter(Boolean)] keeps the non-empty strings. *)
Definition keepTruthy (xs : list (option string)) : list string :=
  omap (λ x, match x with
             | Some s => if nonempty s then Some s else None
             | None => None
             end) xs.

Definition dayData (day : DailyLog) : string :=
  String.concat "; "
    (keepTruthy
       [ if gt (weight day) zero
         then Some ("Peso: " ++ NumberToString (weight day) ++ " kg")
         else None;
         if existsb nonempty (foodValues (food day))
         then Some ("Comidas: Desayuno(" ++ breakfast (food day)
                    ++ "), Almuerzo(" ++ lunch (food day)
                    ++ "), Merienda(" ++ snack (food day)
                    ++ "), Cena(" ++ dinner (food day)
                    ++ "), Otros(" ++ other (food day) ++ ")")
         else None;
         if nonempty (mood day)
         then Some ("Sensaciones: " ++ mood day)
         else Some (mood day);
         Some ("Nivel de Actividad: " ++ ActivityLevel_text (activityLevel day)) ]).

(** The callback of [weeklyLog.map]: the line of a day, or the empty string
    for a day whose [dayData] is empty. *)
Definition dayLine (index : nat) (day : DailyLog) : string :=
  let data := dayData day in
  if nonempty data
  then "- " ++ default "undefined" (dayNames !! index) ++ ": " ++ data
  else "".

(** [weeklyLog.map(...).filter(Boolean)]: the day-list of the prompt. *)
Definition dayList (log : list DailyLog) : list string :=
  List.filter nonempty (imap dayLine log).

(** A day is included when its line passes the outer [filter(Boolean)]. *)
Definition dayIncluded (index : nat) (day : DailyLog) : bool :=
  nonempty (dayLine index day).

Definition indent : string := "      ".

Definition buildPrompt (p : option UserProfile) (log : list DailyLog)
    (m : Metrics) : string :=
  nl ++ indent ++ "DATOS DEL USUARIO:" ++ nl
  ++ indent ++ "- Nombre: "
  ++ orText (default "" (name <$> p)) "No especificado" ++ nl
  ++ indent ++ "- Edad: " ++ orNumber (age <$> p) "No especificado" ++ nl
  ++ indent ++ "- Objetivo Principal: "
  ++ orText (default "" (objective <$> p)) "No especificado" ++ nl
  ++ indent ++ "- Peso Inicial: "
  ++ orNumber (initialWeight <$> p) "No especificado" ++ " kg" ++ nl
  ++ indent ++ "- Peso Meta: "
  ++ orNumber (weightGoal <$> p) "No especificado" ++ " kg" ++ nl
  ++ indent ++ nl
  ++ indent ++ "DATOS DE LA SEMANA:" ++ nl
  ++ indent ++ String.concat nl (dayList log) ++ nl
  ++ nl
  ++ indent ++ "DATOS DE MÉTRICAS Y ACTIVIDAD FÍSICA:" ++ nl
  ++ indent ++ "- Fuerza: " ++ orText (strength m) "No registrado" ++ nl
  ++ indent ++ "- Medidas: " ++ orText (measurements m) "No registrado" ++ nl
  ++ indent ++ "- BMI: " ++ orText (bmi m) "No registrado" ++ nl
  ++ indent ++ "- Actividad Física Detallada: "
  ++ orText (dailyActivity m) "No registrado" ++ nl
  ++ nl
  ++ indent ++ instructions.

(** What [generateSummary] does to the outside. *)
Inductive effect : Type :=
  | Alert (message : string)
  | ConsoleError
  | GenerateContent (model contents : string).

(** How the promise of [ai.models.generateContent] settles. *)
Inductive response : Type :=
  | Resolved (text : string)
  | Rejected.

Definition setLoading (b : bool) (st : AppState) : AppState :=
  {| objects := objects st;
     profile := profile st;
     weeklyLog := weeklyLog st;
     metrics := metrics st;
     currentDayIndex := currentDayIndex st;
     summary := summary st;
     loading := b |}.

Definition setSummary (s : option Summary) (st : AppState) : AppState :=
  {| objects := objects st;
     profile := profile st;
     weeklyLog := weeklyLog st;
     metrics := metrics st;
     currentDayIndex := currentDayIndex st;
     summary := s;
     loading := loading st |}.

(** [generateSummary] up to its [await]: the state it leaves, what it did,
    and whether it is waiting for the provider ([true]) or has returned. *)
Definition generateSummary_start (st : AppState)
    : AppState * list effect * bool :=
  let st1 := setSummary None (setLoading true st) in
  if negb (hasData (days st) (metrics st)) then
    (setLoading false st1,
     [Alert "Por favor, introduce algunos datos antes de generar un resumen."],
     false)
  else
    (st1,
     [GenerateContent "gemini-2.5-flash"
        (buildPrompt (profile st) (days st) (metrics st))],
     true).

(** [generateSummary] after its [await]: the [try] body on a resolved
    promise, the [catch] block on a rejected one, then [finally]. *)
Definition generateSummary_settle (r : response) (st : AppState)
    : AppState * list effect :=
  match r with
  | Resolved text =>
      (setLoading false (setSummary (Some {| content := text |}) st), [])
  | Rejected =>
      (setLoading false st,
       [ConsoleError;
        Alert "Hubo un error al generar el resumen. Por favor, inténtalo de nuevo."])
  end.

(** One execution of [generateSummary]: [meanwhile] are the events handled
    while the request is pending and [answer] is how the request settles. *)
Definition generateSummary (meanwhile : list event) (answer : response)
    (st : AppState) : option (AppState * list effect) :=
  let '(st1, out, awaiting) := generateSummary_start st in
  if awaiting then
    st2 ← run meanwhile st1;
    let '(st3, out') := generateSummary_settle answer st2 in
    Some (st3, (out ++ out')%list)
  else Some (st1, out).

Definition callsProvider (out : list effect) : bool :=
  existsb (λ e, match e with GenerateContent _ _ => true | _ => false end) out.

Definition reportsNoData (out : list effect) : bool :=
  existsb (λ e, match e with
                | Alert m =>
                    String.eqb m "Por favor, introduce algunos datos antes de generar un resumen."
                | _ => false
                end) out.

(** ** Goal progress *)

(** [weeklyLog.filter(d => d.weight > 0).pop()?.weight ?? profile.initialWeight],
    as written in [handleShareSummary] and in [TrackerScreen]. *)
Definition handleShareSummary_lastWeight (log : list DailyLog)
    (p : UserProfile) : number :=
  match last (List.filter (λ d, gt (weight d) zero) log) with
  | Some d => weight d
  | None => initialWeight p
  end.

Definition TrackerScreen_lastWeight (log : list DailyLog)
    (p : UserProfile) : number :=
  match last (List.filter (λ d, gt (weight d) zero) log) with
  | Some d => weight d
  | None => initialWeight p
  end.

(** [calculateProgress(profile.initialWeight, lastWeight, profile.weightGoal)]
    in [handleShareSummary] and in [TrackerScreen]. *)
Definition handleShareSummary_progress (log : list DailyLog)
    (p : UserProfile) : Progress number :=
  calculateProgress NumberToString (initialWeight p) (handleShareSummary_lastWeight log p)
    (weightGoal p).

Definition TrackerScreen_progress (log : list DailyLog)
    (p : UserProfile) : Progress number :=
  calculateProgress NumberToString (initialWeight p) (TrackerScreen_lastWeight log p)
    (weightGoal p).

(** ** Reachable states *)

(** The states of a session: it starts from what the durable store holds (a
    stored week has seven days), and goes on by the handlers and by the two
    halves of [generateSummary]; a request may settle at any later point. *)
Inductive reachable : AppState → Prop :=
  | reachable_boot p w m :
      (∀ ds, w = Some ds → length ds = 7) → reachable (boot p w m)
  | reachable_handle st ev st' :
      reachable st → handle ev st = Some st' → reachable st'
  | reachable_start st :
      reachable st → reachable (generateSummary_start st).1.1
  | reachable_settle st r :
      reachable st → reachable (generateSummary_settle r st).1.

End Report.

Local Open Scope nat_scope.

(** The shape every reachable state has: seven addresses of stored day
    objects, a day index from 0 to 6, and the seven day objects of the module
    at the head of the store. *)
Definition valid (st : AppState) : Prop :=
  length (weeklyLog st) = 7
  ∧ currentDayIndex st ≤ 6
  ∧ Forall (λ l, l < length (objects st)) (weeklyLog st)
  ∧ 7 ≤ length (objects st).

(** The day at a position of the week, read through the array. *)
Definition dayAt (st : AppState) (i : nat) : option DailyLog :=
  weeklyLog st !! i ≫= λ l, objects st !! l.

(** Whether a string begins with a decimal digit. *)
Definition headDigit (s : string) : bool :=
  match s with
  | String c _ => bool_decide (is_Some (digit_of c))
  | EmptyString => false
  end.

(** Whether a string, after its leading white space and an optional sign,
    begins with a StrUnsignedDecimalLiteral: [Infinity], a digit, or a point
    followed by a digit. *)
Definition startsNumber (s : string) : bool :=
  let u := (strip_sign (trimStart s)).2 in
  starts_with "Infinity" u
  || headDigit u
  || match after_point u with
     | Some r => headDigit r
     | None => false
     end.

(** A day with nothing recorded but, possibly, an activity level. *)
Definition blankFood : DailyFoodLog :=
  {| breakfast := ""; lunch := ""; snack := ""; dinner := ""; other := "" |}.

(** No weight above 0, no meal and no mood on any day, and no metrics. *)
Definition noRecordedData (log : list DailyLog) (m : Metrics) : Prop :=
  Forall (λ d, gt (weight d) zero = false ∧ food d = blankFood
               ∧ mood d = ""%string) log
  ∧ m = initialMetrics.

(** The seven day objects of the module still have the weight, the mood and
    the activity level they were built with. *)
Definition pristine (st : AppState) : Prop :=
  ∀ l, l < 7 →
    ∃ d, objects st !! l = Some d
         ∧ weight d = zero ∧ mood d = ""%string ∧ activityLevel d = Moderado.

(** ** Further definitions: the rest of [App] and its screens *)

(** *** What [TrackerScreen] shows

    [disabled={loading}] on the generate button, [summary && ...] around the
    summary section, and [summary && !loading && ...] around the download
    button. *)

Definition generateDisabled (st : AppState) : bool := loading st.

Definition summaryShown (st : AppState) : bool :=
  match summary st with
  | Some _ => true
  | None => false
  end.

Definition shareShown (st : AppState) : bool :=
  summaryShown st && negb (loading st).

(** Two states with the same tracked data: they may differ in the summary
    and in the loading flag. *)
Definition sameData (a b : AppState) : Prop :=
  objects a = objects b ∧ profile a = profile b ∧ weeklyLog a = weeklyLog b
  ∧ metrics a = metrics b ∧ currentDayIndex a = currentDayIndex b.

(** An event that records something the has-data check looks at. *)
Definition entersData (ev : event) : bool :=
  match ev with
  | EvLogChange (ChangeWeight value) => gt (parseFloat value) zero
  | EvLogChange (ChangeMood value) => nonempty value
  | EvFoodChange _ value => nonempty value
  | EvMetricsChange _ value => nonempty value
  | _ => false
  end.

(** [food[name]] *)
Definition getFood (f : FoodField) (fd : DailyFoodLog) : string :=
  match f with
  | Breakfast => breakfast fd
  | Lunch => lunch fd
  | Snack => snack fd
  | Dinner => dinner fd
  | Other => other fd
  end.

#[export] Instance FoodField_eq_dec : EqDecision FoodField.
Proof. solve_decision. Defined.

(** The week holds none of the seven day objects of the module, and these
    are as they were built. *)
Definition untouched (st : AppState) : Prop :=
  Forall (λ l, 7 ≤ l) (weeklyLog st)
  ∧ ∀ l, l < 7 → objects st !! l = Some initialDailyLog.

Section ProgressBar.

Context {N : Type} {ops : NumberOps N}.

(** [180 * (progress / 100)], the width of the filled rectangle that
    [handleShareSummary] draws over a track of width 180. *)
Definition progressBarWidth (progress : N) : N :=
  num_mul (num_lit 180) (num_div progress (num_lit 100)).

End ProgressBar.

(** *** useStickyState

    [localStorage] is a finite map from keys to strings.  [JSON.stringify]
    and [JSON.parse] are parameters; [None] stands for a call that throws,
    which both [try] blocks of the hook catch.  [setItem] is taken to
    succeed. *)

Section StickyState.

Context {T : Type}.
Variable stringify : T → option string.
Variable parse : string → option T.

(** The stored value under a key, when there is one that parses. *)
Definition stickyStored (storage : gmap string string) (key : string)
    : option T :=
  storage !! key ≫= parse.

(** The initial value of the cell. *)
Definition stickyInitial (storage : gmap string string) (defaultValue : T)
    (key : string) : T :=
  default defaultValue (stickyStored storage key).

(** The effect that runs when the value has changed. *)
Definition stickyEffect (key : string) (value : T)
    (storage : gmap string string) : gmap string string :=
  match stringify value with
  | Some text => <[key := text]> storage
  | None => storage
  end.

End StickyState.

Section Reload.

Variable stringifyProfile : option UserProfile → option string.
Variable parseProfile : string → option (option UserProfile).
Variable stringifyWeek : list DailyLog → option string.
Variable parseWeek : string → option (list DailyLog).
Variable stringifyMetrics : Metrics → option string.
Variable parseMetrics : string → option Metrics.

(** The three sticky cells of [App] that [AppState] has, at mount.  The
    default of the weekly log is the module-level array itself, which [boot]
    takes as [None]. *)
Definition App_mount (storage : gmap string string) : AppState :=
  boot (stickyInitial parseProfile storage None "user-profile")
       (stickyStored parseWeek storage "weekly-log")
       (Some (stickyInitial parseMetrics storage initialMetrics "user-metrics")).

(** The effects of the three cells on a state. *)
Definition App_persist (st : AppState) (storage : gmap string string)
    : gmap string string :=
  stickyEffect stringifyMetrics "user-metrics" (metrics st)
    (stickyEffect stringifyWeek "weekly-log" (days st)
       (stickyEffect stringifyProfile "user-profile" (profile st) storage)).

End Reload.

(** *** The name of the exported file *)

(** The white space characters [\s] matches, on the UTF-8 bytes of the
    string: of one, two and three bytes (see [JSNumber.trimStart]). *)
Definition ws1 (n : N) : bool := ((9 <=? n) && (n <=? 13) || (n =? 32))%N.
Definition ws2 (n n2 : N) : bool := ((n =? 194) && (n2 =? 160))%N.
Definition ws3 (n n2 n3 : N) : bool :=
  ((n =? 225) && (n2 =? 154) && (n3 =? 128)
   || (n =? 226) && (n2 =? 128)
        && ((128 <=? n3) && (n3 <=? 138)
            || (n3 =? 168) || (n3 =? 169) || (n3 =? 175))
   || (n =? 226) && (n2 =? 129) && (n3 =? 159)
   || (n =? 227) && (n2 =? 128) && (n3 =? 128)
   || (n =? 239) && (n2 =? 187) && (n3 =? 191))%N.

(** A white space character at the head of a string: what follows it. *)
Definition white_head (s : string) : option string :=
  match s with
  | String c r =>
      if ws1 (N_of_ascii c) then Some r
      else
        match r with
        | String c2 r2 =>
            if ws2 (N_of_ascii c) (N_of_ascii c2) then Some r2
            else
              match r2 with
              | String c3 r3 =>
                  if ws3 (N_of_ascii c) (N_of_ascii c2) (N_of_ascii c3)
                  then Some r3
                  else None
              | EmptyString => None
              end
        | EmptyString => None
        end
  | EmptyString => None
  end.

(** [s.replace(/\s/g, '_')] *)
Fixpoint underscoreWhiteSpace (s : string) : string :=
  match s with
  | String c r =>
      if ws1 (N_of_ascii c) then String "_" (underscoreWhiteSpace r)
      else
        match r with
        | String c2 r2 =>
            if ws2 (N_of_ascii c) (N_of_ascii c2)
            then String "_" (underscoreWhiteSpace r2)
            else
              match r2 with
              | String c3 r3 =>
                  if ws3 (N_of_ascii c) (N_of_ascii c2) (N_of_ascii c3)
                  then String "_" (underscoreWhiteSpace r3)
                  else String c (underscoreWhiteSpace r)
              | EmptyString => String c (underscoreWhiteSpace r)
              end
        | EmptyString => String c (underscoreWhiteSpace r)
        end
  | EmptyString => ""
  end.

(** The argument of [doc.save] in [handleShareSummary]. *)
Definition pdfFileName (name : string) : string :=
  "resumen_fitness_" ++ underscoreWhiteSpace name ++ ".pdf".

(** No white space character begins anywhere in the string. *)
Fixpoint whiteFree (s : string) : bool :=
  match s with
  | EmptyString => true
  | String _ r =>
      match white_head s with
      | Some _ => false
      | None => whiteFree r
      end
  end.

(** Bytes below 128 that are not white space. *)
Fixpoint plainAscii (p : string) : bool :=
  match p with
  | EmptyString => true
  | String b p' =>
      negb (ws1 (N_of_ascii b)) && (N_of_ascii b <? 128)%N && plainAscii p'
  end.

(** *** Values at run time *)

Module Coerce.

(** A value a profile field holds at run time: the form stores the text of
    the input, and the initial profile has numbers. *)
Inductive jsval : Type :=
  | VNum (n : number)
  | VStr (s : string).

(** ToBoolean. *)
Definition ToBoolean (v : jsval) : bool :=
  match v with
  | VNum n => JSNumber.truthy n
  | VStr s => nonempty s
  end.

(** Whether a string is made of white space only. *)
Definition blank (s : string) : bool := negb (nonempty (trimStart s)).

(** [String.prototype.trim]: [trimStart], then the white space at the end
    is dropped. *)
Fixpoint trimEnd (s : string) : string :=
  match s with
  | EmptyString => ""
  | String c r => if blank s then "" else String c (trimEnd r)
  end.

Definition trim (s : string) : string := trimEnd (trimStart s).

(** The value of a digit in a base up to 16. *)
Definition digit_in (base : Z) (c : ascii) : option Z :=
  let n := Z.of_N (N_of_ascii c) in
  let d :=
    if ((48 <=? n) && (n <=? 57))%Z then Some (n - 48)%Z
    else if ((97 <=? n) && (n <=? 102))%Z then Some (n - 87)%Z
    else if ((65 <=? n) && (n <=? 70))%Z then Some (n - 55)%Z
    else None in
  match d with
  | Some v => if (v <? base)%Z then Some v else None
  | None => None
  end.

Fixpoint digits_in (base acc : Z) (len : nat) (s : string) : Z * nat * string :=
  match s with
  | String c r =>
      match digit_in base c with
      | Some d => digits_in base (base * acc + d)%Z (S len) r
      | None => (acc, len, s)
      end
  | EmptyString => (acc, len, s)
  end.

(** ExponentPart_opt at the head of [s]: the exponent and the rest; the
    exponent is 0 and nothing is consumed when there is no well-formed
    exponent part. *)
Definition exponent_rest (s : string) : Z * string :=
  match s with
  | String c r =>
      if (Ascii.eqb c "e" || Ascii.eqb c "E")%bool then
        let '(negative, r') := strip_sign r in
        let '(v, len, rest) := digits 0 0 r' in
        match len with
        | O => (0%Z, s)
        | S _ => (if negative then (- v)%Z else v, rest)
        end
      else (0%Z, s)
  | EmptyString => (0%Z, s)
  end.

(** The longest StrUnsignedDecimalLiteral at the head of [s], as
    [JSNumber.unsigned_literal] reads it, with what follows it. *)
Definition unsigned_literal_rest (s : string) : option (number * string) :=
  if starts_with "Infinity" s then Some (Inf false, String.substring 8 (String.length s - 8) s)
  else
    let '(ip, ilen, r1) := digits 0 0 s in
    let '(m, flen, r2) :=
      match after_point r1 with
      | Some r =>
          let '(m, flen, r2) := digits ip 0 r in
          match ilen, flen with
          | O, O => (ip, O, r1)
          | _, _ => (m, flen, r2)
          end
      | None => (ip, O, r1)
      end in
    match ilen, flen with
    | O, O => None
    | _, _ =>
        let '(e, rest) := exponent_rest r2 in
        Some (round (inject_Z m * pow10 (e - Z.of_nat flen)), rest)
    end.

(** NonDecimalIntegerLiteral: [0x], [0o] or [0b] and at least one digit of
    the base, with what follows. *)
Definition non_decimal_rest (s : string) : option (number * string) :=
  match s with
  | String "0" (String c r) =>
      let base :=
        if (Ascii.eqb c "x" || Ascii.eqb c "X")%bool then Some 16%Z
        else if (Ascii.eqb c "o" || Ascii.eqb c "O")%bool then Some 8%Z
        else if (Ascii.eqb c "b" || Ascii.eqb c "B")%bool then Some 2%Z
        else None in
      match base with
      | Some b =>
          let '(v, len, rest) := digits_in b 0 0 r in
          match len with
          | O => None
          | S _ => Some (round (inject_Z v), rest)
          end
      | None => None
      end
  | _ => None
  end.

(** StringToNumber: the whole string, white space at both ends apart, has
    to be a StrNumericLiteral; the empty string is 0. *)
Definition StringToNumber (s : string) : number :=
  let t := trimStart s in
  if negb (nonempty t) then Num 0
  else
    let '(negative, u) := strip_sign t in
    match unsigned_literal_rest u with
    | Some (v, rest) =>
        if blank rest then (if negative then neg v else v)
        else
          match non_decimal_rest t with
          | Some (w, rest') => if blank rest' then w else NaN
          | None => NaN
          end
    | None =>
        match non_decimal_rest t with
        | Some (w, rest') => if blank rest' then w else NaN
        | None => NaN
        end
    end.

Definition ToNumber (v : jsval) : number :=
  match v with
  | VNum n => n
  | VStr s => StringToNumber s
  end.

(** [a === b], [a > b], [a >= b], [a <= b]: two strings are compared as
    strings, code unit by code unit (here byte by byte); otherwise both
    sides are converted to numbers. *)
Definition strictEquals (a b : jsval) : bool :=
  match a, b with
  | VNum x, VNum y => JSNumber.strict_eq x y
  | VStr s, VStr t => String.eqb s t
  | _, _ => false
  end.

Definition greaterThan (a b : jsval) : bool :=
  match a, b with
  | VStr s, VStr t => String.ltb t s
  | _, _ => JSNumber.gt (ToNumber a) (ToNumber b)
  end.

Definition greaterOrEqual (a b : jsval) : bool :=
  match a, b with
  | VStr s, VStr t => String.leb t s
  | _, _ => JSNumber.ge (ToNumber a) (ToNumber b)
  end.

Definition lessOrEqual (a b : jsval) : bool :=
  match a, b with
  | VStr s, VStr t => String.leb s t
  | _, _ => JSNumber.le (ToNumber a) (ToNumber b)
  end.

End Coerce.

Import Coerce.

(** The operations on run-time values, with the arithmetic of the real
    numbers (see [exact_ops]): the comparisons of [strictEquals] to
    [lessOrEqual], and arithmetic on the numbers the operands convert to. *)
#[export] Instance runtime_ops : NumberOps jsval := {|
  num_lit z := VNum (Num (inject_Z z));
  num_eq := Coerce.strictEquals;
  num_gt := Coerce.greaterThan;
  num_ge := Coerce.greaterOrEqual;
  num_le := Coerce.lessOrEqual;
  num_sub a b := VNum (sub (ToNumber a) (ToNumber b));
  num_mul a b := VNum (mul (ToNumber a) (ToNumber b));
  num_div a b := VNum (div (ToNumber a) (ToNumber b));
  num_abs a := VNum (abs (ToNumber a));
  num_min a b := VNum (min (ToNumber a) (ToNumber b));
  num_max a b := VNum (max (ToNumber a) (ToNumber b));
  num_value := ToNumber |}.

(** The operations of the script on run-time values: the same, with each
    result of the arithmetic rounded to binary64 (see [rounded_ops]). *)
Definition script_ops : NumberOps jsval := {|
  num_lit z := VNum (round (inject_Z z));
  num_eq := Coerce.strictEquals;
  num_gt := Coerce.greaterThan;
  num_ge := Coerce.greaterOrEqual;
  num_le := Coerce.lessOrEqual;
  num_sub a b := VNum (rounded (sub (ToNumber a) (ToNumber b)));
  num_mul a b := VNum (rounded (mul (ToNumber a) (ToNumber b)));
  num_div a b := VNum (rounded (div (ToNumber a) (ToNumber b)));
  num_abs a := VNum (abs (ToNumber a));
  num_min a b := VNum (min (ToNumber a) (ToNumber b));
  num_max a b := VNum (max (ToNumber a) (ToNumber b));
  num_value := ToNumber |}.

(** A result of [calculateProgress] on numbers, as the same result on
    run-time values. *)
Definition liftProgress (r : Progress number) : Progress jsval :=
  {| progress := VNum (progress r); progressText := progressText r |}.

(** *** The profile form *)

Module ProfileForm.

(** The profile object at run time: [handleProfileChange] stores the text of
    the input in the field, so the fields the interface types as numbers hold
    the number of [initialProfile] or a string. *)
Record UserProfile : Type := mkUserProfile {
  name : string;
  age : jsval;
  objective : string;
  initialWeight : jsval;
  weightGoal : jsval }.

Definition initialProfile : UserProfile :=
  {| name := ""; age := VNum zero; objective := "";
     initialWeight := VNum zero; weightGoal := VNum zero |}.

(** The [name] attribute of the five inputs of [ProfileScreen]. *)
Inductive Field : Type := Name | Age | Objective | InitialWeight | WeightGoal.

Inductive View : Type := ProfileView | TrackerView.

Record FormState : Type := mkFormState {
  profile : option UserProfile;
  view : View;
  errors : gmap string string }.

(** [{ ...(prev ?? initialProfile), [name]: value }] *)
Definition handleProfileChange (f : Field) (value : string) (st : FormState)
    : FormState :=
  let prev := default initialProfile (profile st) in
  let next :=
    match f with
    | Name =>
        {| name := value; age := age prev; objective := objective prev;
           initialWeight := initialWeight prev; weightGoal := weightGoal prev |}
    | Age =>
        {| name := name prev; age := VStr value; objective := objective prev;
           initialWeight := initialWeight prev; weightGoal := weightGoal prev |}
    | Objective =>
        {| name := name prev; age := age prev; objective := value;
           initialWeight := initialWeight prev; weightGoal := weightGoal prev |}
    | InitialWeight =>
        {| name := name prev; age := age prev; objective := objective prev;
           initialWeight := VStr value; weightGoal := weightGoal prev |}
    | WeightGoal =>
        {| name := name prev; age := age prev; objective := objective prev;
           initialWeight := initialWeight prev; weightGoal := VStr value |}
    end in
  {| profile := Some next; view := view st; errors := errors st |}.

(** [!v || v <= 0] on a field. *)
Definition notPositive (v : jsval) : bool :=
  negb (Coerce.ToBoolean v) || Coerce.lessOrEqual v (VNum zero).

(** [if (cond) newErrors[key] = message] *)
Definition addError (cond : bool) (key message : string)
    (newErrors : gmap string string) : gmap string string :=
  if cond then <[key := message]> newErrors else newErrors.

(** [validateProfile]: the errors it sets and the boolean it returns,
    [Object.keys(newErrors).length === 0]. *)
Definition validateProfile (st : FormState) : FormState * bool :=
  match profile st with
  | None =>
      ({| profile := profile st; view := view st;
          errors := {["form" := "Por favor completa tu perfil."]} |},
       false)
  | Some p =>
      let newErrors :=
        addError (notPositive (weightGoal p)) "weightGoal"
          "El peso meta debe ser un número positivo."
          (addError (notPositive (initialWeight p)) "initialWeight"
             "El peso inicial debe ser un número positivo."
             (addError (notPositive (age p)) "age"
                "La edad debe ser un número positivo."
                (addError (negb (nonempty (trim (objective p)))) "objective"
                   "El objetivo es obligatorio."
                   (addError (negb (nonempty (trim (name p)))) "name"
                      "El nombre es obligatorio." ∅)))) in
      ({| profile := profile st; view := view st; errors := newErrors |},
       bool_decide (size newErrors = 0))
  end.

Definition handleProfileSave (st : FormState) : FormState :=
  let '(st', ok) := validateProfile st in
  if ok
  then {| profile := profile st'; view := TrackerView; errors := errors st' |}
  else st'.

(** The effect run once after mounting:
    [if (profile && profile.name) setView('tracker')]. *)
Definition mountEffect (st : FormState) : FormState :=
  match profile st with
  | Some p =>
      if nonempty (name p)
      then {| profile := profile st; view := TrackerView; errors := errors st |}
      else st
  | None => st
  end.

(** [view === 'profile' || !profile]: whether [App] renders
    [ProfileScreen]. *)
Definition showsProfileScreen (st : FormState) : bool :=
  match view st, profile st with
  | ProfileView, _ => true
  | _, None => true
  | TrackerView, Some _ => false
  end.

(** The form after a list of changes. *)
Definition fill (changes : list (Field * string)) (st : FormState)
    : FormState :=
  foldl (λ st fv, handleProfileChange fv.1 fv.2 st) st changes.

(** What a numeric field can hold: the 0 of [initialProfile] or a string. *)
Definition formField (v : jsval) : Prop :=
  v = VNum zero ∨ ∃ s, v = VStr s.

(** A field passes [validateProfile]. *)
Definition textOk (s : string) : Prop := trimStart s ≠ "".
Definition numberOk (v : jsval) : Prop :=
  Coerce.ToBoolean v = true ∧ JSNumber.le (ToNumber v) zero = false.

End ProfileForm.

(** * Properties *)

(** ** Numbers *)

Section NumberFacts.

Local Open Scope Q_scope.

Lemma lt_Num p q : lt (Num p) (Num q) = true ↔ p < q.
Proof.
  unfold lt; simpl. rewrite Qlt_alt. destruct (p ?= q); intuition congruence.
Qed.

Lemma le_Num p q : le (Num p) (Num q) = true ↔ p <= q.
Proof.
  unfold le; simpl. rewrite Qle_alt. destruct (p ?= q); intuition congruence.
Qed.

Lemma strict_eq_Num p q : strict_eq (Num p) (Num q) = true ↔ p == q.
Proof.
  unfold strict_eq; simpl. rewrite Qeq_alt.
  destruct (p ?= q); intuition congruence.
Qed.

(** A weight that is [=== 0] is not [> 0]. *)
Lemma zero_not_gt w : strict_eq w zero = true → gt w zero = false.
Proof.
  destruct w as [|s|q]; [done|by destruct s|].
  unfold zero, gt. rewrite strict_eq_Num. intros Hq.
  apply not_true_is_false. rewrite lt_Num. lra.
Qed.

(** [Math.max(0, Math.min(x, 100))] on a finite [x]. *)
Lemma clamp_Num x :
  ∃ y, max zero (min (Num x) (Num 100)) = Num y
       ∧ ((x <= 0 ∧ y == 0) ∨ (0 <= x <= 100 ∧ y == x)
          ∨ (100 <= x ∧ y == 100)).
Proof.
  unfold max, min, zero; simpl.
  destruct (Qcompare_spec x 100) as [E|L|G]; simpl.
  - destruct (Qcompare_spec 0 x); eexists; (split; [reflexivity|]); lra.
  - destruct (Qcompare_spec 0 x); eexists; (split; [reflexivity|]); lra.
  - destruct (Qcompare_spec 0 100); eexists; (split; [reflexivity|]); lra.
Qed.

(** The clamped percentage as a function of the distance covered [t], for a
    total distance [d]: it stays within 0 and 100, it is 100 exactly from
    [t = d] on, and it grows with [t]. *)
Lemma clamp_ratio t d :
  0 < d →
  ∃ y, max zero (min (Num (t / d * 100)) (Num 100)) = Num y
       ∧ 0 <= y <= 100
       ∧ (y == 100 ↔ d <= t)
       ∧ ∀ t', t <= t' →
           ∃ y', max zero (min (Num (t' / d * 100)) (Num 100)) = Num y'
                 ∧ y <= y'.
Proof.
  intros Hd.
  assert (Hk : 0 < / d) by (by apply Qinv_lt_0_compat).
  assert (Hdk : d * / d == 1) by (apply Qmult_inv_r; lra).
  assert (Hm : ∀ a b, a <= b → a * / d <= b * / d).
  { intros a b Hab. apply Qmult_le_compat_r; lra. }
  unfold Qdiv. set (k := / d) in *.
  destruct (clamp_Num (t * k * 100)) as (y & Hy & Hc).
  exists y. split; [exact Hy|]. split; [lra|]. split.
  - split.
    + intros E. destruct (Qlt_le_dec t d) as [Hlt|]; [|done].
      assert (t * k < d * k) by (apply Qmult_lt_compat_r; lra). lra.
    + intros Hle. specialize (Hm d t Hle). lra.
  - intros t' Htt'. destruct (clamp_Num (t' * k * 100)) as (y' & Hy' & Hc').
    exists y'. split; [exact Hy'|]. specialize (Hm t t' Htt'). lra.
Qed.

End NumberFacts.

(** ** Rounding to binary64 *)

Section RoundingFacts.

Local Open Scope Q_scope.

(** ** Powers of two *)

Lemma pow2_pos e : 0 < 2 ^ e.
Proof. by apply Qpower_0_lt. Qed.

Lemma pow2_add a b : 2 ^ (a + b) == 2 ^ a * 2 ^ b.
Proof. by apply Qpower_plus. Qed.

Lemma pow2_le a b : (a <= b)%Z → 2 ^ a <= 2 ^ b.
Proof. intros H. apply Qpower_le_compat_l; [done|]. by unfold Qle. Qed.

Lemma pow2_lt_inv a b : 2 ^ a < 2 ^ b → (a < b)%Z.
Proof. intros H. eapply Qpower_lt_compat_l_inv; [exact H|reflexivity]. Qed.

Lemma pow2_Z n : (0 <= n)%Z → 2 ^ n == inject_Z (2 ^ n).
Proof. intros H. by rewrite Zpower_Qpower. Qed.

Lemma pow2_cancel a : 2 ^ a * 2 ^ (- a) == 1.
Proof. rewrite <- pow2_add, Z.add_opp_diag_r. reflexivity. Qed.

(** ** The binary exponent *)

Lemma ilog2_spec q : 0 < q → 2 ^ ilog2 q <= q ∧ q < 2 ^ (ilog2 q + 1).
Proof.
  destruct q as [n d]. intros Hq.
  assert (Hn : (0 < n)%Z) by (unfold Qlt in Hq; simpl in Hq; lia).
  unfold ilog2. cbn [Qnum Qden].
  pose proof (Z.log2_spec n Hn) as [Ha1 Ha2].
  pose proof (Z.log2_spec (Zpos d) eq_refl) as [Hb1 Hb2].
  pose proof (Z.log2_nonneg n) as Ha0.
  pose proof (Z.log2_nonneg (Zpos d)) as Hb0.
  set (a := Z.log2 n) in *. set (b := Z.log2 (Zpos d)) in *.
  assert (HA : (0 < 2 ^ a)%Z) by (apply Z.pow_pos_nonneg; lia).
  assert (HB : (0 < 2 ^ b)%Z) by (apply Z.pow_pos_nonneg; lia).
  (* the window: 2^(a-b-1) <= q < 2^(a-b+1) *)
  assert (Hup : n # d < 2 ^ (a - b + 1)).
  { apply (Qmult_lt_r _ _ (2 ^ b)); [apply pow2_pos|].
    rewrite <- pow2_add. replace (a - b + 1 + b)%Z with (Z.succ a) by lia.
    rewrite !pow2_Z by lia. unfold Qlt, Qmult, inject_Z. simpl.
    rewrite !Z.mul_1_r. nia. }
  assert (Hlow : 2 ^ (a - b - 1) <= n # d).
  { apply (Qmult_le_r _ _ (2 ^ Z.succ b)); [apply pow2_pos|].
    rewrite <- pow2_add. replace (a - b - 1 + Z.succ b)%Z with a by lia.
    rewrite !pow2_Z by lia. unfold Qle, Qmult, inject_Z. simpl.
    rewrite !Z.mul_1_r. nia. }
  destruct (Qle_bool (2 ^ (a - b)) (n # d)) eqn:E.
  - apply Qle_bool_iff in E. done.
  - split; [done|]. replace (a - b - 1 + 1)%Z with (a - b)%Z by lia.
    apply Qnot_le_lt. intros H. apply Qle_bool_iff in H. congruence.
Qed.

Lemma ilog2_mono p q : 0 < p → p <= q → (ilog2 p <= ilog2 q)%Z.
Proof.
  intros Hp Hpq.
  destruct (ilog2_spec p Hp) as [H1 _].
  destruct (ilog2_spec q) as [_ H2]; [lra|].
  assert (2 ^ ilog2 p < 2 ^ (ilog2 q + 1)) as H by lra.
  apply pow2_lt_inv in H. lia.
Qed.

(** ** Rounding to the nearest integer *)

Lemma nearest_even_floor x :
  (Qfloor x <= nearest_even x <= Qfloor x + 1)%Z.
Proof.
  unfold nearest_even. destruct (_ ?= _); [destruct (Z.even _)|..]; lia.
Qed.

Lemma nearest_even_mono x y : x <= y → (nearest_even x <= nearest_even y)%Z.
Proof.
  intros Hxy. pose proof (Qfloor_resp_le _ _ Hxy) as Hf.
  destruct (Z.eq_dec (Qfloor x) (Qfloor y)) as [E|N].
  - unfold nearest_even. rewrite <- E.
    destruct (Qcompare_spec (x - inject_Z (Qfloor x)) (1 # 2)) as [H1|H1|H1];
      destruct (Qcompare_spec (y - inject_Z (Qfloor x)) (1 # 2)) as [H2|H2|H2];
      try destruct (Z.even (Qfloor x)); try lia; lra.
  - pose proof (nearest_even_floor x). pose proof (nearest_even_floor y). lia.
Qed.

Lemma nearest_even_Z z : nearest_even (inject_Z z) = z.
Proof.
  unfold nearest_even. rewrite Qfloor_Z.
  destruct (Qcompare_spec (inject_Z z - inject_Z z) (1 # 2)) as [H|H|H];
    [lra|done|lra].
Qed.

Lemma nearest_even_le x z : x <= inject_Z z → (nearest_even x <= z)%Z.
Proof. intros H. apply nearest_even_mono in H. by rewrite nearest_even_Z in H. Qed.

Lemma nearest_even_ge x z : inject_Z z <= x → (z <= nearest_even x)%Z.
Proof. intros H. apply nearest_even_mono in H. by rewrite nearest_even_Z in H. Qed.

(** ** Rounding a positive rational *)

Lemma round_pos_unfold q :
  round_pos q
  = if Qle_bool (2 ^ 1024) (round_value q) then Inf false
    else Num (Qred (round_value q)).
Proof. reflexivity. Qed.

Lemma ulp_exponent_mono p q :
  0 < p → p <= q → (ulp_exponent p <= ulp_exponent q)%Z.
Proof. intros Hp Hpq. unfold ulp_exponent. pose proof (ilog2_mono p q Hp Hpq). lia. Qed.

Lemma scaled_le x z k : x <= inject_Z z * 2 ^ k → x * 2 ^ (- k) <= inject_Z z.
Proof.
  intros H. apply (Qmult_le_r _ _ (2 ^ k)); [apply pow2_pos|].
  rewrite <- Qmult_assoc, (Qmult_comm (2 ^ (- k))), pow2_cancel. lra.
Qed.

Lemma scaled_ge x z k : inject_Z z * 2 ^ k <= x → inject_Z z <= x * 2 ^ (- k).
Proof.
  intros H. apply (Qmult_le_r _ _ (2 ^ k)); [apply pow2_pos|].
  rewrite <- Qmult_assoc, (Qmult_comm (2 ^ (- k))), pow2_cancel. lra.
Qed.

(** The rounded value stays in the binade of the argument. *)
Lemma round_value_upper q :
  0 < q → round_value q <= 2 ^ (ulp_exponent q + 53).
Proof.
  intros Hq. unfold round_value. set (k := ulp_exponent q).
  rewrite pow2_add, (Qmult_comm (2 ^ k)).
  apply Qmult_le_compat_r; [|apply Qlt_le_weak, pow2_pos].
  rewrite (pow2_Z 53) by done.
  change (inject_Z (nearest_even (q * 2 ^ (- k))) <= inject_Z (2 ^ 53)).
  rewrite <- Zle_Qle. apply nearest_even_le. apply scaled_le.
  rewrite <- pow2_Z by done. rewrite <- pow2_add.
  destruct (ilog2_spec q Hq) as [_ Hup].
  apply Qlt_le_weak. eapply Qlt_le_trans; [exact Hup|].
  apply pow2_le. unfold k, ulp_exponent. lia.
Qed.

Lemma round_value_lower q :
  0 < q → (-1022 < ilog2 q)%Z → 2 ^ (ulp_exponent q + 52) <= round_value q.
Proof.
  intros Hq He. unfold round_value. set (k := ulp_exponent q).
  rewrite pow2_add, (Qmult_comm (2 ^ k)).
  apply Qmult_le_compat_r; [|apply Qlt_le_weak, pow2_pos].
  rewrite (pow2_Z 52) by done.
  change (inject_Z (2 ^ 52) <= inject_Z (nearest_even (q * 2 ^ (- k)))).
  rewrite <- Zle_Qle. apply nearest_even_ge. apply scaled_ge.
  rewrite <- pow2_Z by done. rewrite <- pow2_add.
  destruct (ilog2_spec q Hq) as [Hlow _].
  eapply Qle_trans; [|exact Hlow].
  apply pow2_le. unfold k, ulp_exponent. lia.
Qed.

Lemma round_value_nonneg q : 0 <= q → 0 <= round_value q.
Proof.
  intros Hq. unfold round_value. apply Qmult_le_0_compat.
  - change 0 with (inject_Z 0). rewrite <- Zle_Qle. apply nearest_even_ge.
    apply Qmult_le_0_compat; [done|]. apply Qlt_le_weak, pow2_pos.
  - apply Qlt_le_weak, pow2_pos.
Qed.

Lemma round_value_mono p q : 0 < p → p <= q → round_value p <= round_value q.
Proof.
  intros Hp Hpq. assert (Hq : 0 < q) by lra.
  pose proof (ulp_exponent_mono p q Hp Hpq) as Hk.
  destruct (Z.eq_dec (ulp_exponent p) (ulp_exponent q)) as [E|N].
  - unfold round_value. rewrite E.
    apply Qmult_le_compat_r; [|apply Qlt_le_weak, pow2_pos].
    rewrite <- Zle_Qle. apply nearest_even_mono.
    apply Qmult_le_compat_r; [done|]. apply Qlt_le_weak, pow2_pos.
  - assert (-1022 < ilog2 q)%Z as He by (unfold ulp_exponent in *; lia).
    eapply Qle_trans; [apply round_value_upper; done|].
    eapply Qle_trans; [|apply round_value_lower; done].
    apply pow2_le. lia.
Qed.

(** ** The order of the numbers *)

Lemma le_trans a b c : le a b = true → le b c = true → le a c = true.
Proof.
  destruct a as [|[]|p], b as [|[]|q], c as [|[]|r]; try done.
  rewrite !le_Num. apply Qle_trans.
Qed.

Lemma le_NaN_l a : le NaN a = false.
Proof. done. Qed.

Lemma le_NaN_r a : le a NaN = false.
Proof. by destruct a as [|[]|]. Qed.

Lemma le_neg a b : le a b = true → le (neg b) (neg a) = true.
Proof.
  destruct a as [|[]|p], b as [|[]|q]; try done. simpl.
  rewrite !le_Num. lra.
Qed.

(** ** Rounding is monotone *)

Lemma round_pos_mono p q :
  0 < p → p <= q → le (round_pos p) (round_pos q) = true.
Proof.
  intros Hp Hpq. pose proof (round_value_mono p q Hp Hpq) as Hv.
  rewrite !round_pos_unfold.
  destruct (Qle_bool (2 ^ 1024) (round_value p)) eqn:Ep;
    destruct (Qle_bool (2 ^ 1024) (round_value q)) eqn:Eq; try done.
  - apply Qle_bool_iff in Ep.
    assert (Qle_bool (2 ^ 1024) (round_value q) = true) as E
      by (apply Qle_bool_iff; lra).
    congruence.
  - apply le_Num. by rewrite !Qred_correct.
Qed.

Lemma round_pos_nonneg q : 0 <= q → le zero (round_pos q) = true.
Proof.
  intros Hq. rewrite round_pos_unfold.
  destruct (Qle_bool (2 ^ 1024) (round_value q)); [done|].
  apply le_Num. rewrite Qred_correct. by apply round_value_nonneg.
Qed.

Lemma round_pos_not_NaN q : round_pos q ≠ NaN.
Proof. rewrite round_pos_unfold. by destruct (Qle_bool _ _). Qed.

Lemma round_not_NaN q : round q ≠ NaN.
Proof.
  unfold round. destruct (q ?= 0); [done|..].
  - pose proof (round_pos_not_NaN (- q)). by destruct (round_pos (- q)).
  - apply round_pos_not_NaN.
Qed.

Lemma round_mono p q : p <= q → le (round p) (round q) = true.
Proof.
  intros Hpq. unfold round.
  destruct (Qcompare_spec p 0) as [Hp|Hp|Hp];
    destruct (Qcompare_spec q 0) as [Hq|Hq|Hq]; try lra.
  - done.
  - apply (round_pos_nonneg q). lra.
  - apply (le_neg zero). apply round_pos_nonneg. lra.
  - apply le_neg. apply round_pos_mono; lra.
  - eapply le_trans.
    + apply (le_neg zero). apply round_pos_nonneg. lra.
    + apply (round_pos_nonneg q). lra.
  - by apply round_pos_mono.
Qed.

(** ** Rounding respects the equality of the rationals *)

Lemma nearest_even_comp x y : x == y → nearest_even x = nearest_even y.
Proof.
  intros E. apply Z.le_antisymm; apply nearest_even_mono; lra.
Qed.

Lemma ulp_exponent_comp p q : 0 < p → p == q → ulp_exponent p = ulp_exponent q.
Proof.
  intros Hp E. apply Z.le_antisymm; apply ulp_exponent_mono; lra.
Qed.

Lemma round_value_comp p q : 0 < p → p == q → round_value p == round_value q.
Proof.
  intros Hp E. unfold round_value. rewrite <- (ulp_exponent_comp p q Hp E).
  rewrite (nearest_even_comp (p * _) (q * 2 ^ (- ulp_exponent p)));
    [reflexivity|].
  apply Qmult_comp; [exact E|reflexivity].
Qed.

Lemma round_pos_comp p q : 0 < p → p == q → round_pos p = round_pos q.
Proof.
  intros Hp E. rewrite !round_pos_unfold.
  pose proof (round_value_comp p q Hp E) as Hv.
  rewrite (Qred_complete _ _ Hv).
  destruct (Qle_bool (2 ^ 1024) (round_value p)) eqn:Ep;
    destruct (Qle_bool (2 ^ 1024) (round_value q)) eqn:Eq; try done.
  - apply Qle_bool_iff in Ep. rewrite Hv in Ep. apply Qle_bool_iff in Ep.
    congruence.
  - apply Qle_bool_iff in Eq. rewrite <- Hv in Eq. apply Qle_bool_iff in Eq.
    congruence.
Qed.

Lemma round_comp p q : p == q → round p = round q.
Proof.
  intros E. unfold round. rewrite <- E.
  destruct (Qcompare_spec p 0) as [Hp|Hp|Hp]; [done|..].
  - f_equal. apply round_pos_comp; lra.
  - by apply round_pos_comp.
Qed.



(** ** The values of binary64 *)







(** ** Monotone operations *)

Lemma le_refl a : a ≠ NaN → le a a = true.
Proof. destruct a as [|[]|p]; try done. intros _. apply le_Num. lra. Qed.

Lemma le_not_NaN a b : le a b = true → a ≠ NaN ∧ b ≠ NaN.
Proof. by destruct a as [|[]|], b as [|[]|]. Qed.


Lemma le_Inf_l a : a ≠ NaN → le (Inf true) a = true.
Proof. by destruct a as [|[]|]. Qed.

Lemma le_Inf_r a : a ≠ NaN → le a (Inf false) = true.
Proof. by destruct a as [|[]|]. Qed.

Lemma rounded_mono a b : le a b = true → le (rounded a) (rounded b) = true.
Proof.
  destruct a as [|[]|p], b as [|[]|q]; try done; simpl; intros H.
  - apply le_Inf_l, round_not_NaN.
  - apply le_Inf_r, round_not_NaN.
  - apply round_mono. by apply le_Num.
Qed.



Lemma div_mono a b t :
  0 < t → le a b = true → le (div a (Num t)) (div b (Num t)) = true.
Proof.
  intros Ht.
  assert (Qeq_bool t 0 = false) as E0.
  { apply not_true_is_false. rewrite Qeq_bool_iff. lra. }
  assert (is_neg t = false) as En.
  { unfold is_neg. destruct (Qcompare_spec t 0); [done|lra|done]. }
  destruct a as [|[]|p], b as [|[]|q]; try done; simpl;
    rewrite ?E0, ?En; try done.
  rewrite !le_Num. intros H. unfold Qdiv.
  apply Qmult_le_compat_r; [done|]. apply Qlt_le_weak. by apply Qinv_lt_0_compat.
Qed.




(** ** The clamp *)

Lemma clamp_range x :
  x ≠ NaN →
  le zero (max zero (min x (Num 100))) = true
  ∧ le (max zero (min x (Num 100))) (Num 100) = true.
Proof.
  destruct x as [|[]|p]; try done; intros _; unfold max, min, zero; simpl;
    try done.
  destruct (Qcompare_spec p 100); simpl;
    try destruct (Qcompare_spec 0 p); simpl; rewrite ?le_Num; split; lra.
Qed.

Lemma clamp_NaN x :
  max zero (min x (Num 100)) = NaN ↔ x = NaN.
Proof.
  destruct x as [|[]|p]; try done; unfold max, min, zero; simpl.
  destruct (Qcompare_spec p 100); simpl;
    try destruct (Qcompare_spec 0 p); simpl; done.
Qed.



(** ** The percentage *)

Section Percent.

Variable t : Q.
Hypothesis t_pos : 0 < t.








End Percent.

End RoundingFacts.

(** ** parseFloat *)

Lemma digits_length_le acc len s : len ≤ (digits acc len s).1.2.
Proof.
  revert acc len. induction s as [|c r IH]; intros acc len; simpl; [done|].
  destruct (digit_of c) as [d|]; simpl; [|done].
  specialize (IH (10 * acc + d)%Z (S len)). lia.
Qed.

Lemma digits_no_digit acc len s :
  headDigit s = false → digits acc len s = (acc, len, s).
Proof.
  destruct s as [|c r]; simpl; [done|].
  destruct (digit_of c); [|done].
  intros H. apply bool_decide_eq_false in H. destruct H. eauto.
Qed.

Lemma digits_digit acc len s :
  headDigit s = true → ∃ v n r, digits acc len s = (v, S n, r).
Proof.
  destruct s as [|c r]; simpl; [done|].
  intros H. apply bool_decide_eq_true in H. destruct H as [d Hd]. rewrite Hd.
  pose proof (digits_length_le (10 * acc + d) (S len) r) as Hle.
  destruct (digits (10 * acc + d) (S len) r) as [[v n] r'] eqn:E.
  simpl in Hle. destruct n as [|n]; [lia|]. eauto.
Qed.

(** [unsigned_literal] finds a literal exactly at the strings that begin
    with one. *)
Lemma unsigned_literal_None u :
  unsigned_literal u = None
  ↔ (starts_with "Infinity" u
     || headDigit u
     || match after_point u with Some r => headDigit r | None => false end)
    = false.
Proof.
  unfold unsigned_literal.
  destruct (starts_with "Infinity" u); [done|]. cbn [orb].
  destruct (headDigit u) eqn:Hu.
  - destruct (digits_digit 0 0 u Hu) as (v & n & r & ->). cbn [orb].
    destruct (after_point r) as [r'|]; [|done].
    destruct (digits v 0 r') as [[m flen] r2]. done.
  - rewrite (digits_no_digit _ _ _ Hu). cbn [orb].
    destruct (after_point u) as [r|]; [|done].
    destruct (headDigit r) eqn:Hr.
    + destruct (digits_digit 0 0 r Hr) as (v & n & r' & ->). done.
    + rewrite (digits_no_digit _ _ _ Hr). done.
Qed.

(** A literal is never [NaN]. *)
Lemma unsigned_literal_not_NaN u : unsigned_literal u ≠ Some NaN.
Proof.
  unfold unsigned_literal.
  destruct (starts_with "Infinity" u); [done|].
  destruct (digits 0 0 u) as [[ip ilen] r1].
  destruct (after_point r1) as [r|].
  - destruct (digits ip 0 r) as [[m flen] r2].
    destruct ilen, flen; try done; intros [= H]; by apply round_not_NaN in H.
  - destruct ilen; [done|]. intros [= H]. by apply round_not_NaN in H.
Qed.

(** [parseFloat] answers [NaN] exactly on the strings that do not begin with
    a number. *)
Lemma parseFloat_NaN s : parseFloat s = NaN ↔ startsNumber s = false.
Proof.
  unfold parseFloat, startsNumber.
  destruct (strip_sign (trimStart s)) as [negative u]. cbn [snd].
  rewrite <- unsigned_literal_None.
  pose proof (unsigned_literal_not_NaN u) as Hn.
  destruct (unsigned_literal u) as [v|]; [|done].
  split; [|done]. intros H. destruct negative, v; simpl in H; congruence.
Qed.

Example parseFloat_empty : parseFloat "" = NaN.
Proof. reflexivity. Qed.

Example parseFloat_prefix : parseFloat "  70.5kg" = Num (141 # 2).
Proof. reflexivity. Qed.

Example parseFloat_rounds :
  parseFloat "0.1" = Num (3602879701896397 # 36028797018963968)
  ∧ parseFloat "1e-400" = Num 0
  ∧ parseFloat "1e400" = Inf false.
Proof. repeat split; vm_compute; reflexivity. Qed.

Example parseFloat_exponent : parseFloat "-.5e1x" = Num (- (5 # 1)).
Proof. reflexivity. Qed.

Example parseFloat_word : parseFloat "abc" = NaN.
Proof. reflexivity. Qed.

(** ** The store and the shape of the state *)

Lemma deref_lookup (σ : store) (a : list loc) (i : nat) :
  Forall (λ l, l < length σ) a →
  deref σ a !! i = a !! i ≫= λ l, σ !! l.
Proof.
  intros Ha. revert i. induction Ha as [|l a Hl Ha IH]; intros i; [done|].
  unfold deref in *. cbn [omap list_omap].
  destruct (lookup_lt_is_Some_2 σ l Hl) as [d Hd]. rewrite Hd.
  destruct i as [|i]; simpl; [by rewrite Hd | apply IH].
Qed.

Lemma deref_length (σ : store) (a : list loc) :
  Forall (λ l, l < length σ) a → length (deref σ a) = length a.
Proof.
  induction 1 as [|l a Hl Ha IH]; [done|].
  unfold deref in *. cbn [omap list_omap].
  destruct (lookup_lt_is_Some_2 σ l Hl) as [d ->]. simpl. by rewrite IH.
Qed.

Lemma days_lookup st i : valid st → days st !! i = dayAt st i.
Proof. intros (_ & _ & Hl & _). by apply deref_lookup. Qed.

Lemma days_length st : valid st → length (days st) = 7.
Proof. intros (Hn & _ & Hl & _). unfold days. by rewrite deref_length. Qed.

Lemma valid_current_day st :
  valid st →
  ∃ l day, weeklyLog st !! currentDayIndex st = Some l
           ∧ objects st !! l = Some day.
Proof.
  intros (Hn & Hi & Hl & _).
  destruct (lookup_lt_is_Some_2 (weeklyLog st) (currentDayIndex st))
    as [l Hw]; [lia|].
  rewrite Forall_lookup in Hl.
  destruct (lookup_lt_is_Some_2 (objects st) l) as [d Hd]; [by eapply Hl|].
  eauto.
Qed.

(** Unfolds a handler that reads the current day, in hypothesis [H]. *)
Ltac open_handler H l d Hw Hd :=
  match type of H with
  | context [weeklyLog ?st !! currentDayIndex ?st] =>
      destruct (weeklyLog st !! currentDayIndex st) as [l|] eqn:Hw;
      simpl in H; [|done];
      destruct (objects st !! l) as [d|] eqn:Hd; simpl in H; [|done];
      injection H as <-
  end.

Lemma handleLogChange_valid e st st' :
  valid st → handleLogChange e st = Some st' → valid st'.
Proof.
  intros (Hn & Hi & Hl & Ho) H. unfold handleLogChange in H.
  open_handler H l d Hw Hd. unfold valid; simpl.
  rewrite length_insert, length_app. simpl.
  repeat split; try lia.
  apply Forall_insert; [|lia].
  eapply Forall_impl; [exact Hl|]. simpl. lia.
Qed.

Lemma handleFoodChange_valid f v st st' :
  valid st → handleFoodChange f v st = Some st' → valid st'.
Proof.
  intros (Hn & Hi & Hl & Ho) H. unfold handleFoodChange in H.
  open_handler H l d Hw Hd. unfold valid; simpl.
  rewrite length_insert. done.
Qed.

Lemma handleNewWeek_valid c st : valid st → valid (handleNewWeek c st).
Proof.
  intros (Hn & Hi & Hl & Ho). destruct c; [|done].
  unfold valid; simpl. repeat split; try lia.
  unfold initialWeeklyLog. apply Forall_forall. intros l Hin.
  apply elem_of_seq in Hin. lia.
Qed.

Lemma handle_valid ev st st' : valid st → handle ev st = Some st' → valid st'.
Proof.
  intros Hv H. destruct ev; simpl in H.
  - by eapply handleLogChange_valid.
  - by eapply handleFoodChange_valid.
  - injection H as <-. exact Hv.
  - injection H as <-. by apply handleNewWeek_valid.
  - injection H as <-. destruct Hv as (Hn & Hi & Hl & Ho).
    unfold valid; cbn -[Nat.max Nat.min]. repeat split; try done. lia.
  - injection H as <-. destruct Hv as (Hn & Hi & Hl & Ho).
    unfold valid; cbn -[Nat.max Nat.min]. repeat split; try done. lia.
  - injection H as <-. exact Hv.
Qed.

(** In a valid state every handler finds its day. *)
Lemma handle_total ev st : valid st → is_Some (handle ev st).
Proof.
  intros Hv. destruct (valid_current_day st Hv) as (l & d & Hw & Hd).
  destruct ev; simpl; try done.
  - unfold handleLogChange. rewrite Hw. simpl. rewrite Hd. done.
  - unfold handleFoodChange. rewrite Hw. simpl. rewrite Hd. done.
Qed.

Lemma run_valid evs st :
  valid st → ∃ st', run evs st = Some st' ∧ valid st'.
Proof.
  revert st. induction evs as [|ev evs IH]; intros st Hv; simpl; [eauto|].
  destruct (handle_total ev st Hv) as [st1 H1]. rewrite H1. simpl.
  apply IH. by eapply handle_valid.
Qed.

Lemma boot_valid p w m :
  (∀ ds, w = Some ds → length ds = 7) → valid (boot p w m).
Proof.
  intros Hw. unfold valid, boot; cbn [objects weeklyLog currentDayIndex].
  rewrite length_app. change (length initialStore) with 7.
  destruct w as [ds|]; cbn [default].
  - rewrite length_seq. specialize (Hw ds eq_refl). repeat split; try lia.
    apply Forall_forall. intros l Hin. apply elem_of_seq in Hin.
    unfold id. lia.
  - repeat split; try lia.
    apply Forall_forall. intros l Hin. apply elem_of_seq in Hin. lia.
Qed.

(** [handleLogChange] leaves every object of the store as it was. *)
Lemma handleLogChange_preserves_objects e st st' l d :
  handleLogChange e st = Some st' →
  objects st !! l = Some d → objects st' !! l = Some d.
Proof.
  unfold handleLogChange. intros H Hl.
  open_handler H l0 d0 Hw Hd. simpl. by apply lookup_app_l_Some.
Qed.

Lemma handleLogChange_other_days e st st' j :
  valid st → handleLogChange e st = Some st' → j ≠ currentDayIndex st →
  days st' !! j = days st !! j.
Proof.
  intros Hv H Hj. pose proof (handleLogChange_valid _ _ _ Hv H) as Hv'.
  rewrite !days_lookup by done. unfold dayAt.
  destruct Hv as (Hn & Hi & Hl & Ho). unfold handleLogChange in H.
  open_handler H l d Hw Hd. simpl.
  rewrite list_lookup_insert_ne by done.
  destruct (weeklyLog st !! j) as [l'|] eqn:Hj'; [|done]. simpl.
  apply lookup_app_l. rewrite Forall_lookup in Hl. by eapply Hl.
Qed.

Lemma handleLogChange_current_day e st :
  valid st →
  ∃ st' old,
    handleLogChange e st = Some st'
    ∧ days st !! currentDayIndex st = Some old
    ∧ days st' !! currentDayIndex st = Some (mergeLogChange e old).
Proof.
  intros Hv. destruct (valid_current_day st Hv) as (l & d & Hw & Hd).
  assert (∃ st', handleLogChange e st = Some st') as [st' H].
  { unfold handleLogChange. rewrite Hw. simpl. rewrite Hd. simpl. eauto. }
  pose proof (handleLogChange_valid _ _ _ Hv H) as Hv'.
  exists st', d. split; [done|].
  rewrite !days_lookup by done. unfold dayAt. rewrite Hw. simpl.
  split; [done|].
  unfold handleLogChange in H. rewrite Hw in H. simpl in H. rewrite Hd in H.
  injection H as <-. simpl. destruct Hv as (Hn & Hi & Hl & Ho).
  rewrite list_lookup_insert_eq by lia. simpl.
  rewrite lookup_app_r by lia. by rewrite Nat.sub_diag.
Qed.

Lemma handle_pristine ev st st' :
  pristine st → handle ev st = Some st' → pristine st'.
Proof.
  intros Hp H. destruct ev; simpl in H;
    try (injection H as <-; try destruct confirmed; exact Hp).
  - intros l Hl. destruct (Hp l Hl) as (d & Hd & Hx). exists d. split; [|done].
    by eapply handleLogChange_preserves_objects.
  - unfold handleFoodChange in H. open_handler H l0 d0 Hw Hd0.
    intros l Hl. destruct (Hp l Hl) as (d & Hd & Hx). simpl.
    destruct (decide (l0 = l)) as [->|Hne].
    + eexists. rewrite list_lookup_insert_eq by (by eapply lookup_lt_Some).
      split; [done|]. simpl. by simplify_eq.
    + exists d. by rewrite list_lookup_insert_ne.
Qed.

(** ** Reachable states *)

Section Reachable.

Context (NumberToString : number → string) (instructions : string).

Lemma generateSummary_start_valid st :
  valid st → valid (generateSummary_start NumberToString instructions st).1.1.
Proof.
  intros Hv. unfold generateSummary_start.
  destruct (negb (hasData (days st) (metrics st))); exact Hv.
Qed.

Lemma generateSummary_settle_valid r st :
  valid st → valid (generateSummary_settle r st).1.
Proof. intros Hv. destruct r; exact Hv. Qed.

Lemma reachable_valid st :
  reachable NumberToString instructions st → valid st.
Proof.
  induction 1 as [p w m Hw|st ev st' _ IH H|st _ IH|st r _ IH].
  - by apply boot_valid.
  - by eapply handle_valid.
  - by apply generateSummary_start_valid.
  - by apply generateSummary_settle_valid.
Qed.

Lemma reachable_pristine st :
  reachable NumberToString instructions st → pristine st.
Proof.
  induction 1 as [p w m Hw|st ev st' _ IH H|st _ IH|st r _ IH].
  - intros l Hl. exists initialDailyLog. split; [|done].
    unfold boot; simpl. do 7 (destruct l as [|l]; [done|]). lia.
  - by eapply handle_pristine.
  - unfold generateSummary_start.
    destruct (negb (hasData (days st) (metrics st))); exact IH.
  - destruct r; exact IH.
Qed.

(** What a confirmed [handleNewWeek] does give from every reachable state:
    seven days with weight 0, no mood and the activity level Moderado, the
    initial metrics, no summary and the first day selected.  The meals are
    not in the list: see [handleNewWeek_keeps_food_edit]. *)
Lemma handleNewWeek_resets_all_but_food st :
  reachable NumberToString instructions st →
  let st' := handleNewWeek true st in
  length (days st') = 7
  ∧ Forall (λ d, weight d = zero ∧ mood d = ""%string
                 ∧ activityLevel d = Moderado) (days st')
  ∧ metrics st' = initialMetrics
  ∧ summary st' = None
  ∧ currentDayIndex st' = 0.
Proof.
  intros Hr st'. pose proof (reachable_valid _ Hr) as Hv.
  pose proof (handleNewWeek_valid true st Hv) as Hv'.
  pose proof (reachable_pristine _ Hr) as Hp.
  split; [by apply days_length|]. split; [|done].
  apply Forall_lookup. intros i d Hi.
  rewrite days_lookup in Hi by done. unfold dayAt in Hi. simpl in Hi.
  destruct (initialWeeklyLog !! i) as [l|] eqn:Hl; simpl in Hi; [|done].
  assert (l < 7) as Hl7.
  { apply list_elem_of_lookup_2 in Hl. apply elem_of_seq in Hl. lia. }
  destruct (Hp l Hl7) as (d' & Hd' & Hx). by simplify_eq.
Qed.

End Reachable.

(** ** The day handlers *)

(** C2, as the code has it: for every input string, [handleLogChange] on the
    weight field of the current day stores [parseFloat] of the string as the
    weight of that day; for the empty string, and for any string that does
    not begin with a number, what is stored is [NaN] (which is not greater
    than 0), not 0.  The meals, the mood and the activity level of that day
    and all the other days are as before. *)
Theorem handleLogChange_weight st value :
  valid st →
  ∃ st' old new,
    handleLogChange (ChangeWeight value) st = Some st'
    ∧ days st !! currentDayIndex st = Some old
    ∧ days st' !! currentDayIndex st = Some new
    ∧ weight new = parseFloat value
    ∧ (value = ""%string ∨ startsNumber value = false →
       weight new = NaN ∧ gt (weight new) zero = false)
    ∧ food new = food old
    ∧ mood new = mood old
    ∧ activityLevel new = activityLevel old
    ∧ (∀ j, j ≠ currentDayIndex st → days st' !! j = days st !! j).
Proof.
  intros Hv.
  destruct (handleLogChange_current_day (ChangeWeight value) st Hv)
    as (st' & old & H & Hold & Hnew).
  exists st', old, (mergeLogChange (ChangeWeight value) old).
  do 4 (split; [done|]). split; [|do 3 (split; [done|])].
  - intros Hbad. assert (parseFloat value = NaN) as Hnan.
    { destruct Hbad as [->|Hs]; [done|]. by apply parseFloat_NaN. }
    simpl. by rewrite Hnan.
  - intros j Hj. by eapply handleLogChange_other_days.
Qed.

Lemma handleLogChange_weight_witness :
  ∃ st' old new,
    handleLogChange (ChangeWeight "abc") freshInstall = Some st'
    ∧ days freshInstall !! currentDayIndex freshInstall = Some old
    ∧ days st' !! currentDayIndex freshInstall = Some new
    ∧ weight new = parseFloat "abc"
    ∧ ("abc" = "" ∨ startsNumber "abc" = false →
       weight new = NaN ∧ gt (weight new) zero = false)%string
    ∧ food new = food old
    ∧ mood new = mood old
    ∧ activityLevel new = activityLevel old
    ∧ (∀ j, j ≠ currentDayIndex freshInstall →
         days st' !! j = days freshInstall !! j).
Proof.
  apply (handleLogChange_weight freshInstall "abc").
  unfold valid. simpl. repeat split; try lia. repeat constructor.
Defined.

(** C2, as stated, fails: on a fresh install, [handleLogChange] with the
    empty string on the weight field stores [NaN] in the current day, and
    [NaN === 0] is false. *)
Lemma handleLogChange_empty_weight_is_NaN :
  ∃ st new,
    handleLogChange (ChangeWeight "") freshInstall = Some st
    ∧ days st !! currentDayIndex freshInstall = Some new
    ∧ weight new = NaN
    ∧ strict_eq (weight new) zero = false.
Proof. eexists _, _. repeat split; reflexivity. Qed.

(** C4 at its failing input: on a fresh install, [handleFoodChange] writes
    the meal into the day object that the array of the previous state and the
    module-level [initialWeeklyLog] hold.  Read after the handler has run,
    both show the edited day where they showed the blank one before, and a
    confirmed [handleNewWeek] installs the addresses of [initialWeeklyLog]
    themselves. *)
Theorem handleFoodChange_mutates_shared_day :
  ∃ st edited,
    handleFoodChange Breakfast "avena" freshInstall = Some st
    ∧ breakfast (food edited) = "avena"%string
    ∧ deref (objects freshInstall) (weeklyLog freshInstall) !! 0
      = Some initialDailyLog
    ∧ deref (objects st) (weeklyLog freshInstall) !! 0 = Some edited
    ∧ deref (objects freshInstall) initialWeeklyLog !! 0 = Some initialDailyLog
    ∧ deref (objects st) initialWeeklyLog !! 0 = Some edited
    ∧ weeklyLog (handleNewWeek true st) = initialWeeklyLog.
Proof. eexists _, _. repeat split; reflexivity. Qed.

(** C3 at its failing input: on a fresh install, after a meal has been typed
    for the first day, a confirmed [handleNewWeek] gives a week of seven days
    whose first day still has that meal; the metrics and the summary are
    reset.  The prior state is reachable. *)
Theorem handleNewWeek_keeps_food_edit :
  ∃ prior day,
    handleFoodChange Breakfast "avena" freshInstall = Some prior
    ∧ (∀ NumberToString instructions,
         reachable NumberToString instructions prior)
    ∧ length (days (handleNewWeek true prior)) = 7
    ∧ days (handleNewWeek true prior) !! 0 = Some day
    ∧ breakfast (food day) = "avena"%string
    ∧ metrics (handleNewWeek true prior) = initialMetrics
    ∧ summary (handleNewWeek true prior) = None.
Proof.
  eexists _, _. split; [reflexivity|]. split; [|repeat split; reflexivity].
  intros nts instr.
  eapply (reachable_handle _ _ freshInstall (EvFoodChange Breakfast "avena")).
  - by apply (reachable_boot _ _ None None None).
  - reflexivity.
Qed.

(** ** The has-data check *)

Lemma nonempty_false s : nonempty s = false ↔ s = ""%string.
Proof. by destruct s. Qed.

Lemma foodValues_blank f :
  existsb nonempty (foodValues f) = false ↔ f = blankFood.
Proof.
  destruct f as [b l s d o]. unfold foodValues, blankFood; simpl.
  rewrite !orb_false_iff, !nonempty_false. split.
  - intros (-> & -> & -> & -> & -> & _). done.
  - intros [= -> -> -> -> ->]. done.
Qed.

Lemma metricsValues_blank m :
  existsb nonempty (metricsValues m) = false ↔ m = initialMetrics.
Proof.
  destruct m as [s me b d]. unfold metricsValues, initialMetrics; simpl.
  rewrite !orb_false_iff, !nonempty_false. split.
  - intros (-> & -> & -> & -> & _). done.
  - intros [= -> -> -> ->]. done.
Qed.

Lemma dayHasData_false d :
  dayHasData d = false
  ↔ gt (weight d) zero = false ∧ food d = blankFood ∧ mood d = ""%string.
Proof.
  unfold dayHasData.
  rewrite !orb_false_iff, foodValues_blank, nonempty_false. tauto.
Qed.

Lemma existsb_false {A} (f : A → bool) (l : list A) :
  existsb f l = false ↔ Forall (λ x, f x = false) l.
Proof.
  induction l as [|x l IH]; simpl.
  - split; [constructor|done].
  - rewrite orb_false_iff, IH, Forall_cons. done.
Qed.

Lemma hasData_false log m : hasData log m = false ↔ noRecordedData log m.
Proof.
  unfold hasData, noRecordedData.
  rewrite orb_false_iff, metricsValues_blank, existsb_false.
  split; intros [H ?]; (split; [|done]);
    (eapply Forall_impl; [exact H|]); intros d; apply dayHasData_false.
Qed.

(** ** The day-list of the prompt *)

Lemma nonempty_append a b :
  nonempty (a ++ b)%string = nonempty a || nonempty b.
Proof. by destruct a. Qed.

Lemma nonempty_concat_snoc sep xs s :
  nonempty s = true → nonempty (String.concat sep (xs ++ [s])%list) = true.
Proof.
  intros Hs. induction xs as [|x xs IH]; simpl; [done|].
  destruct (xs ++ [s])%list as [|y ys] eqn:E.
  - by destruct xs.
  - rewrite !nonempty_append, IH. by rewrite !orb_true_r.
Qed.

Section ReportFacts.

Context (NumberToString : number → string) (instructions : string).

(** The activity-level entry is never empty, so [dayData] never is. *)
Lemma dayData_nonempty day : nonempty (dayData NumberToString day) = true.
Proof.
  unfold dayData, keepTruthy.
  match goal with
  | |- context [omap ?f [?a; ?b; ?c; ?d]] =>
      change [a; b; c; d] with ([a; b; c] ++ [d])%list;
      rewrite (omap_app f [a; b; c] [d])
  end.
  cbn [omap list_omap nonempty String.append].
  by apply nonempty_concat_snoc.
Qed.

(** Every day has its line in the day-list, whatever it holds. *)
Lemma dayIncluded_always index day :
  dayIncluded NumberToString index day = true.
Proof.
  unfold dayIncluded, dayLine. by rewrite dayData_nonempty.
Qed.

(** C5, as the code has it: [generateSummary] returns before the request,
    with the no-data notice and no provider call, exactly when no day has a
    weight greater than 0 (the weight is 0, negative or [NaN]), a meal or a
    mood, and every metrics field is empty; otherwise it issues the request.
    The part after the [await] issues no request. *)
Theorem generateSummary_skips_iff st :
  let r := generateSummary_start NumberToString instructions st in
  (r.2 = false ∧ callsProvider r.1.2 = false ∧ reportsNoData r.1.2 = true
   ↔ noRecordedData (days st) (metrics st))
  ∧ (r.2 = true ∧ callsProvider r.1.2 = true ∧ reportsNoData r.1.2 = false
     ↔ ¬ noRecordedData (days st) (metrics st))
  ∧ (∀ answer st2,
       callsProvider (generateSummary_settle answer st2).2 = false).
Proof.
  intros r. subst r. unfold generateSummary_start.
  rewrite <- hasData_false.
  split; [|split].
  - destruct (hasData (days st) (metrics st)); simpl; intuition congruence.
  - destruct (hasData (days st) (metrics st)); simpl; intuition congruence.
  - by intros [text|] st2.
Qed.

(** C9: every execution of [generateSummary] from a valid state runs to its
    end and leaves the loading flag false: the return on no data, the
    resolved request and the rejected request, whatever the user does while
    the request is pending. *)
Theorem generateSummary_clears_loading meanwhile answer st :
  valid st →
  ∃ st' out,
    generateSummary NumberToString instructions meanwhile answer st
    = Some (st', out)
    ∧ loading st' = false.
Proof.
  intros Hv. unfold generateSummary.
  pose proof (generateSummary_start_valid NumberToString instructions st Hv)
    as Hv1.
  unfold generateSummary_start in *.
  destruct (negb (hasData (days st) (metrics st))).
  - eexists _, _. split; done.
  - simpl in Hv1.
    destruct (run_valid meanwhile _ Hv1) as (st2 & -> & _). simpl.
    destruct answer; simpl; eexists _, _; split; done.
Qed.

(** C10: when every day has weight 0, no meal and no mood, and the metrics
    are empty, [generateSummary] gives the no-data notice and returns
    without a request, whatever the activity levels of the days are. *)
Theorem generateSummary_ignores_activityLevel st :
  Forall (λ d, strict_eq (weight d) zero = true ∧ food d = blankFood
               ∧ mood d = ""%string) (days st) →
  metrics st = initialMetrics →
  ∃ st',
    generateSummary_start NumberToString instructions st
    = (st',
       [Alert "Por favor, introduce algunos datos antes de generar un resumen."],
       false)
    ∧ loading st' = false
    ∧ summary st' = None.
Proof.
  intros Hd Hm. unfold generateSummary_start.
  assert (hasData (days st) (metrics st) = false) as ->.
  { apply hasData_false. split; [|done].
    eapply Forall_impl; [exact Hd|]. intros d (Hw & ? & ?). split; [|done].
    by apply zero_not_gt. }
  simpl. eauto.
Qed.

End ReportFacts.

(** C5, as stated, fails: after the weight of the first day has been set to
    [-5], or cleared (which stores [NaN]), that day does not have weight 0,
    and [generateSummary] still returns with the no-data notice and without
    a request. *)
Lemma generateSummary_skips_nonzero_weight :
  (∃ st d,
     run [EvLogChange (ChangeWeight "-5")] freshInstall = Some st
     ∧ days st !! 0 = Some d
     ∧ weight d = Num (- (5 # 1))
     ∧ strict_eq (weight d) zero = false
     ∧ ∀ NumberToString instructions,
         let r := generateSummary_start NumberToString instructions st in
         r.2 = false ∧ callsProvider r.1.2 = false
         ∧ reportsNoData r.1.2 = true)
  ∧ (∃ st d,
       run [EvLogChange (ChangeWeight "")] freshInstall = Some st
       ∧ days st !! 0 = Some d
       ∧ weight d = NaN
       ∧ strict_eq (weight d) zero = false
       ∧ ∀ NumberToString instructions,
           let r := generateSummary_start NumberToString instructions st in
           r.2 = false ∧ callsProvider r.1.2 = false
           ∧ reportsNoData r.1.2 = true).
Proof. split; eexists _, _; repeat split; reflexivity. Qed.

(** C1 at its failing input: with a strength note in the metrics and nothing
    recorded on any day, [generateSummary] builds the prompt, and its
    day-list has a line for each of the seven days, made of the activity
    level alone. *)
Theorem dayList_lists_blank_days :
  ∃ st,
    run [EvMetricsChange Strength "Sentadilla 3x5 60kg"] freshInstall = Some st
    ∧ Forall (λ d, weight d = zero ∧ food d = blankFood ∧ mood d = ""%string)
        (days st)
    ∧ ∀ NumberToString instructions,
        (generateSummary_start NumberToString instructions st).2 = true
        ∧ dayList NumberToString (days st)
          = [ "- Lunes: Nivel de Actividad: Moderado";
              "- Martes: Nivel de Actividad: Moderado";
              "- Miércoles: Nivel de Actividad: Moderado";
              "- Jueves: Nivel de Actividad: Moderado";
              "- Viernes: Nivel de Actividad: Moderado";
              "- Sábado: Nivel de Actividad: Moderado";
              "- Domingo: Nivel de Actividad: Moderado" ]%string.
Proof.
  eexists. split; [reflexivity|]. split; [repeat constructor|].
  intros nts instr. split; reflexivity.
Qed.

Lemma generateSummary_clears_loading_witness :
  ∃ st' out,
    generateSummary (λ _, ""%string) ""
      [EvNewWeek true; EvFoodChange Lunch "arroz"] Rejected
      (handleMetricsChange Bmi "22" freshInstall)
    = Some (st', out)
    ∧ loading st' = false.
Proof.
  apply (generateSummary_clears_loading (λ _, ""%string) ""
           [EvNewWeek true; EvFoodChange Lunch "arroz"] Rejected
           (handleMetricsChange Bmi "22" freshInstall)).
  unfold valid. cbn. repeat split; try lia. repeat constructor.
Defined.

Lemma generateSummary_ignores_activityLevel_witness :
  ∃ st,
    run [EvLogChange (ChangeActivityLevel MuyActivo); EvNextDay;
         EvLogChange (ChangeActivityLevel MuyActivo); EvNextDay;
         EvLogChange (ChangeActivityLevel MuyActivo); EvNextDay;
         EvLogChange (ChangeActivityLevel MuyActivo); EvNextDay;
         EvLogChange (ChangeActivityLevel MuyActivo); EvNextDay;
         EvLogChange (ChangeActivityLevel MuyActivo); EvNextDay;
         EvLogChange (ChangeActivityLevel MuyActivo)] freshInstall = Some st
    ∧ Forall (λ d, activityLevel d = MuyActivo) (days st)
    ∧ ∃ st',
        generateSummary_start (λ _, ""%string) "" st
        = (st',
           [Alert "Por favor, introduce algunos datos antes de generar un resumen."],
           false)
        ∧ loading st' = false
        ∧ summary st' = None.
Proof.
  eexists. split; [vm_compute; reflexivity|].
  split; [vm_compute; repeat constructor|].
  apply (generateSummary_ignores_activityLevel (λ _, ""%string) "").
  - vm_compute. repeat constructor.
  - reflexivity.
Defined.

(** ** The current weight *)

Lemma filter_none {A} (f : A → bool) (l : list A) :
  (∀ x, x ∈ l → f x = false) → List.filter f l = [].
Proof.
  induction l as [|x l IH]; intros H; simpl; [done|].
  rewrite (H x) by constructor. apply IH. intros y Hy. apply H. by constructor.
Qed.

(** The last element that passes a filter is the last element of the
    filtered list. *)
Lemma last_filter {A} (f : A → bool) (l : list A) i x :
  l !! i = Some x → f x = true →
  (∀ j y, i < j → l !! j = Some y → f y = false) →
  last (List.filter f l) = Some x.
Proof.
  intros Hi Hx Hlater.
  rewrite <- (take_drop_middle l i x Hi), List.filter_app. simpl. rewrite Hx.
  rewrite (filter_none f (drop (S i) l)).
  - apply last_snoc.
  - intros y Hy. apply list_elem_of_lookup in Hy as [k Hk].
    rewrite lookup_drop in Hk. eapply (Hlater (S i + k)); [lia|done].
Qed.

Section ProgressFacts.

Context (NumberToString : number → string).

(** C6: the PDF export and the tracker screen select the current weight by
    the same rule and so compute the same progress; the weight selected is
    that of the day with the highest index among the days whose weight is
    greater than 0, and the initial weight of the profile when no day has a
    weight greater than 0. *)
Theorem lastWeight_spec log p :
  handleShareSummary_lastWeight log p = TrackerScreen_lastWeight log p
  ∧ handleShareSummary_progress NumberToString log p
    = TrackerScreen_progress NumberToString log p
  ∧ (∀ i d, log !! i = Some d → gt (weight d) zero = true →
       (∀ j d', i < j → log !! j = Some d' → gt (weight d') zero = false) →
       TrackerScreen_lastWeight log p = weight d)
  ∧ ((∀ d, d ∈ log → gt (weight d) zero = false) →
     TrackerScreen_lastWeight log p = initialWeight p).
Proof.
  split; [done|]. split; [done|]. unfold TrackerScreen_lastWeight. split.
  - intros i d Hi Hd Hlater.
    by rewrite (last_filter (λ d, gt (weight d) zero) log i d).
  - intros Hnone. by rewrite filter_none.
Qed.

Local Open Scope Q_scope.

Lemma progress_gain i c g :
  i < g →
  progress (calculateProgress NumberToString (Num i) (Num c) (Num g))
  = max zero (min (Num ((c + - i) / Qabs (g + - i) * 100)) (Num 100)).
Proof.
  intros Hig. unfold calculateProgress.
  cbn [num_eq num_gt num_sub num_abs num_div num_mul num_min num_max num_lit
       exact_ops].
  assert (strict_eq (Num i) (Num g) = false) as ->.
  { apply not_true_is_false. rewrite strict_eq_Num. lra. }
  assert (gt (Num g) (Num i) = true) as -> by (apply lt_Num; lra).
  cbn [progress sub neg add abs div].
  assert (Qeq_bool (Qabs (g + - i)) 0 = false) as ->.
  { apply not_true_is_false. rewrite Qeq_bool_iff. rewrite Qabs_pos; lra. }
  reflexivity.
Qed.

Lemma progress_loss i c g :
  g < i →
  progress (calculateProgress NumberToString (Num i) (Num c) (Num g))
  = max zero (min (Num ((i + - c) / Qabs (g + - i) * 100)) (Num 100)).
Proof.
  intros Hig. unfold calculateProgress.
  cbn [num_eq num_gt num_sub num_abs num_div num_mul num_min num_max num_lit
       exact_ops].
  assert (strict_eq (Num i) (Num g) = false) as ->.
  { apply not_true_is_false. rewrite strict_eq_Num. lra. }
  assert (gt (Num g) (Num i) = false) as ->.
  { apply not_true_is_false. unfold gt. rewrite lt_Num. lra. }
  cbn [progress sub neg add abs div].
  assert (Qeq_bool (Qabs (g + - i)) 0 = false) as ->.
  { apply not_true_is_false. rewrite Qeq_bool_iff. rewrite Qabs_neg; lra. }
  reflexivity.
Qed.

(** In the arithmetic of the real numbers, where no operation rounds: for
    positive [i] and [g], when [i < g] the progress does not decrease as the
    current weight grows from [i] to [g], on that interval it is 100 at [g]
    and only there, and it lies between 0 and 100 for every current weight;
    when [g < i] the same holds as the current weight falls from [i] to
    [g]. *)
Lemma calculateProgress_monotone_exact i g :
  0 < i → 0 < g →
  let P c := progress (calculateProgress NumberToString (Num i) (Num c) (Num g)) in
  (i < g →
     (∀ c1 c2, i <= c1 → c1 <= c2 → c2 <= g → le (P c1) (P c2) = true)
     ∧ (∀ c, i <= c → c <= g → (strict_eq (P c) (Num 100) = true ↔ c == g))
     ∧ (∀ c, le zero (P c) = true ∧ le (P c) (Num 100) = true))
  ∧ (g < i →
     (∀ c1 c2, g <= c2 → c2 <= c1 → c1 <= i → le (P c1) (P c2) = true)
     ∧ (∀ c, g <= c → c <= i → (strict_eq (P c) (Num 100) = true ↔ c == g))
     ∧ (∀ c, le zero (P c) = true ∧ le (P c) (Num 100) = true)).
Proof.
  intros _ _ P. split; intros Hig.
  - assert (Hd : Qabs (g + - i) == g - i) by (rewrite Qabs_pos; lra).
    assert (Hpos : 0 < Qabs (g + - i)) by lra.
    split; [|split].
    + intros c1 c2 _ H12 _. unfold P. rewrite !progress_gain by done.
      destruct (clamp_ratio (c1 + - i) _ Hpos) as (y1 & -> & _ & _ & Hmono).
      destruct (Hmono (c2 + - i)) as (y2 & -> & Hle); [lra|]. by apply le_Num.
    + intros c _ Hcg. unfold P. rewrite progress_gain by done.
      destruct (clamp_ratio (c + - i) _ Hpos) as (y & -> & _ & Hfull & _).
      rewrite strict_eq_Num, Hfull. split; lra.
    + intros c. unfold P. rewrite progress_gain by done.
      destruct (clamp_ratio (c + - i) _ Hpos) as (y & -> & Hr & _).
      unfold zero. rewrite !le_Num. lra.
  - assert (Hd : Qabs (g + - i) == i - g) by (rewrite Qabs_neg; lra).
    assert (Hpos : 0 < Qabs (g + - i)) by lra.
    split; [|split].
    + intros c1 c2 _ H12 _. unfold P. rewrite !progress_loss by done.
      destruct (clamp_ratio (i + - c1) _ Hpos) as (y1 & -> & _ & _ & Hmono).
      destruct (Hmono (i + - c2)) as (y2 & -> & Hle); [lra|]. by apply le_Num.
    + intros c Hgc _. unfold P. rewrite progress_loss by done.
      destruct (clamp_ratio (i + - c) _ Hpos) as (y & -> & _ & Hfull & _).
      rewrite strict_eq_Num, Hfull. split; lra.
    + intros c. unfold P. rewrite progress_loss by done.
      destruct (clamp_ratio (i + - c) _ Hpos) as (y & -> & Hr & _).
      unfold zero. rewrite !le_Num. lra.
Qed.

(** C8: [calculateProgress(80, 75, 70)] has progress 50 and the sentence
    that 5.00 kg have been lost and 5.00 kg are left to the goal, in binary64
    arithmetic and in exact arithmetic alike. *)
Theorem calculateProgress_example :
  calculateProgress NumberToString (N := SpecFloat.spec_float)
    (num_lit 80) (num_lit 75) (num_lit 70)
  = {| progress := num_lit 50;
       progressText := "Has perdido 5.00 kg. ¡Te faltan 5.00 kg para tu meta!" |}
  ∧ strict_eq
      (progress (calculateProgress NumberToString (Num 80) (Num 75) (Num 70)))
      (Num 50) = true
  ∧ progressText (calculateProgress NumberToString (Num 80) (Num 75) (Num 70))
    = "Has perdido 5.00 kg. ¡Te faltan 5.00 kg para tu meta!"%string.
Proof. repeat split; reflexivity. Qed.

End ProgressFacts.

(** ** calculateProgress in the arithmetic of the script *)

Section RoundedProgress.

Context (NumberToString : number → string).

Local Open Scope Q_scope.




End RoundedProgress.



(** The two readings of the arithmetic of the script agree, operation by
    operation, on 120 pairs of binary64 values: normal and subnormal
    operands, results that are exact, rounded, zero by underflow and infinite
    by overflow. *)
Example rounded_ops_sample_operations :
  forallb same_operations (sample_pairs 120 2024) = true.
Proof. vm_compute. reflexivity. Qed.

(** They give the same progress and the same sentence on these weights. *)
Example rounded_ops_binary64_ops :
  forallb same_result
    [(80, 75, 70); (80, 70015 # 1000, 70); (60, 625 # 10, 70);
     (100000000000000000, 15 # 10, 1); (100000000000000000, 2, 1);
     (1, 9007199254740996, 9007199254740998);
     (inject_Z (10 ^ 308), inject_Z (- 10 ^ 308), inject_Z (- 10 ^ 308));
     (1 # 3, 2 # 7, 5 # 9); (701 # 10, 6895 # 100, 653 # 10);
     (1 # 10, 2 # 10, 3 # 10); (70, 70, 70); (75, 0, 70)]%Q
  = true.
Proof. vm_compute. reflexivity. Qed.

Lemma lastWeight_spec_witness :
  TrackerScreen_lastWeight
    [ mkDailyLog (Num 70) blankFood "" Moderado;
      mkDailyLog zero blankFood "" Activo;
      mkDailyLog (Num (715 # 10)) blankFood "bien" Moderado;
      mkDailyLog NaN blankFood "" Moderado ]
    (mkUserProfile "Ana" (Num 30) "Perder peso" (Num 80) (Num 70))
  = Num (715 # 10)
  ∧ TrackerScreen_lastWeight
      [ mkDailyLog zero blankFood "" Activo;
        mkDailyLog NaN blankFood "" Moderado ]
      (mkUserProfile "Ana" (Num 30) "Perder peso" (Num 80) (Num 70))
    = Num 80.
Proof.
  split.
  - apply (proj1 (proj2 (proj2 (lastWeight_spec (λ _, ""%string) _ _))) 2
             (mkDailyLog (Num (715 # 10)) blankFood "bien" Moderado));
      [reflexivity|reflexivity|].
    intros j d' Hj Hl.
    destruct j as [|[|[|[|j]]]]; try lia; simpl in Hl; [|done].
    injection Hl as <-. reflexivity.
  - apply (proj2 (proj2 (proj2 (lastWeight_spec (λ _, ""%string)
             [ mkDailyLog zero blankFood "" Activo;
               mkDailyLog NaN blankFood "" Moderado ]
             (mkUserProfile "Ana" (Num 30) "Perder peso" (Num 80) (Num 70)))))).
    intros d Hd. apply list_elem_of_In in Hd. simpl in Hd.
    destruct Hd as [<-|[<-|[]]]; reflexivity.
Defined.

(** * Further properties *)

(** ** The shape of the week *)

Lemma NoDup_insert_fresh (l : list nat) i x :
  NoDup l → x ∉ l → NoDup (<[i:=x]> l).
Proof.
  intros Hl Hx. apply NoDup_alt. intros j k y Hj Hk.
  rewrite list_lookup_insert in Hj, Hk.
  destruct (decide (i = j ∧ i < length l)) as [[E1 ?]|?],
    (decide (i = k ∧ i < length l)) as [[E2 ?]|?]; simplify_eq.
  - done.
  - destruct Hx. by eapply list_elem_of_lookup_2.
  - destruct Hx. by eapply list_elem_of_lookup_2.
  - by eapply NoDup_lookup.
Qed.

(** No two positions of the week hold the same day object. *)
Lemma handle_nodup ev st st' :
  valid st → NoDup (weeklyLog st) → handle ev st = Some st' →
  NoDup (weeklyLog st').
Proof.
  intros (Hn & Hi & Hl & Ho) Hd H. destruct ev; simpl in H;
    try (injection H as <-; exact Hd).
  - unfold handleLogChange in H. open_handler H l d Hw Hd'. simpl.
    apply NoDup_insert_fresh; [done|]. intros Hin.
    rewrite Forall_forall in Hl. specialize (Hl _ Hin). lia.
  - unfold handleFoodChange in H. open_handler H l d Hw Hd'. done.
  - injection H as <-. destruct confirmed; [|done]. apply NoDup_seq.
Qed.

Section WeekShape.

Context (NumberToString : number → string) (instructions : string).

Lemma reachable_nodup st :
  reachable NumberToString instructions st → NoDup (weeklyLog st).
Proof.
  induction 1 as [p w m Hw|st ev st' Hr IH H|st _ IH|st r _ IH].
  - destruct w; apply NoDup_seq.
  - eapply handle_nodup; [|done..]. by eapply reachable_valid.
  - unfold generateSummary_start.
    destruct (negb (hasData (days st) (metrics st))); exact IH.
  - destruct r; exact IH.
Qed.

(** X1: in every reachable state the week has seven days, held by seven
    distinct day objects, the selected day is one of them, and every handler
    finds its day and leads to a reachable state. *)
Theorem reachable_week_shape st :
  reachable NumberToString instructions st →
  length (days st) = 7
  ∧ currentDayIndex st ≤ 6
  ∧ NoDup (weeklyLog st)
  ∧ is_Some (days st !! currentDayIndex st)
  ∧ ∀ ev, ∃ st', handle ev st = Some st'
                 ∧ reachable NumberToString instructions st'.
Proof.
  intros Hr. pose proof (reachable_valid _ _ _ Hr) as Hv.
  split; [by apply days_length|].
  split; [by destruct Hv as (_ & ? & _)|].
  split; [by apply reachable_nodup|]. split.
  - apply lookup_lt_is_Some_2. rewrite days_length by done.
    destruct Hv as (_ & ? & _). lia.
  - intros ev. destruct (handle_total ev st Hv) as [st' H].
    exists st'. split; [done|]. by eapply reachable_handle.
Qed.

End WeekShape.

Lemma reachable_week_shape_witness :
  length (days (handleNewWeek true freshInstall)) = 7
  ∧ currentDayIndex (handleNewWeek true freshInstall) ≤ 6
  ∧ NoDup (weeklyLog (handleNewWeek true freshInstall))
  ∧ is_Some (days (handleNewWeek true freshInstall)
             !! currentDayIndex (handleNewWeek true freshInstall))
  ∧ ∀ ev, ∃ st', handle ev (handleNewWeek true freshInstall) = Some st'
                 ∧ reachable (λ _, ""%string) "" st'.
Proof.
  apply (reachable_week_shape (λ _, ""%string) "").
  apply (reachable_handle _ _ freshInstall (EvNewWeek true)); [|reflexivity].
  apply (reachable_boot _ _ None None None). intros ds Hds. discriminate.
Defined.

(** ** Day navigation *)

Lemma iter_setCurrentDayIndex h k st :
  Nat.iter k (setCurrentDayIndex h) st
  = match k with
    | O => st
    | S _ =>
        setCurrentDayIndex
          (λ _, currentDayIndex (Nat.iter k (setCurrentDayIndex h) st)) st
    end.
Proof.
  induction k as [|k IH]; [done|]. rewrite Nat.iter_succ.
  destruct k as [|k]; [done|]. rewrite IH at 1. done.
Qed.

(** X2: pressing the next-day button [k] times from day [i] selects day
    [min 6 (i + k)], and pressing the previous-day button [k] times selects
    day [i - k], or day 0 when [k] exceeds [i]; only the selected day
    changes. *)
Theorem day_navigation k st :
  Nat.iter k nextDay st
  = setCurrentDayIndex
      (λ i, match k with O => i | S _ => Nat.min 6 (i + k) end) st
  ∧ Nat.iter k previousDay st = setCurrentDayIndex (λ i, i - k) st.
Proof.
  assert (Hnext : ∀ k st, currentDayIndex (Nat.iter k nextDay st)
                  = match k with
                    | O => currentDayIndex st
                    | S _ => Nat.min 6 (currentDayIndex st + k)
                    end).
  { clear. intros k st. induction k as [|k IH]; [done|].
    rewrite Nat.iter_succ. unfold nextDay at 1, setCurrentDayIndex.
    cbn [currentDayIndex]. rewrite IH. destruct k; lia. }
  assert (Hprev : ∀ k st, currentDayIndex (Nat.iter k previousDay st)
                  = currentDayIndex st - k).
  { clear. intros k st. induction k as [|k IH]; [simpl; lia|].
    rewrite Nat.iter_succ. unfold previousDay at 1, setCurrentDayIndex.
    cbn [currentDayIndex]. rewrite IH. lia. }
  split.
  - unfold nextDay at 1. rewrite iter_setCurrentDayIndex. fold nextDay.
    rewrite Hnext. destruct k; [by destruct st|done].
  - unfold previousDay at 1. rewrite iter_setCurrentDayIndex. fold previousDay.
    rewrite Hprev. destruct k; [|done].
    destruct st. unfold setCurrentDayIndex. simpl. f_equal. lia.
Qed.

(** ** The day handlers as updates of the week *)

Lemma handleLogChange_days_aux e st :
  valid st →
  ∃ st' old,
    handleLogChange e st = Some st'
    ∧ days st !! currentDayIndex st = Some old
    ∧ days st' = <[currentDayIndex st := mergeLogChange e old]> (days st)
    ∧ deref (objects st') (weeklyLog st) = days st
    ∧ metrics st' = metrics st ∧ profile st' = profile st
    ∧ currentDayIndex st' = currentDayIndex st
    ∧ summary st' = summary st ∧ loading st' = loading st.
Proof.
  intros Hv.
  destruct (handleLogChange_current_day e st Hv) as (st' & old & H & Hold & Hnew).
  exists st', old. split; [done|]. split; [done|].
  pose proof (handleLogChange_valid _ _ _ Hv H) as Hv'.
  split; [|split].
  - apply list_eq. intros j. rewrite list_lookup_insert.
    rewrite days_length by done. destruct Hv as (Hn & Hi & Hl & Ho).
    destruct (decide (currentDayIndex st = j ∧ currentDayIndex st < 7))
      as [[<- _]|Hne]; [done|].
    eapply handleLogChange_other_days; [done..|].
    intros ->. apply Hne. split; [done|lia].
  - destruct Hv as (Hn & Hi & Hl & Ho). apply list_eq. intros j.
    unfold days. rewrite !deref_lookup; try done.
    + destruct (weeklyLog st !! j) as [l|] eqn:Hj; [|done]. simpl.
      rewrite Forall_lookup in Hl. specialize (Hl _ _ Hj).
      destruct (lookup_lt_is_Some_2 (objects st) l Hl) as [d Hd].
      rewrite Hd. by eapply handleLogChange_preserves_objects.
    + eapply Forall_impl; [exact Hl|]. simpl. intros l Hlt.
      unfold handleLogChange in H. open_handler H l0 d0 Hw Hd0. simpl.
      rewrite length_app. lia.
  - unfold handleLogChange in H. open_handler H l0 d0 Hw Hd0. done.
Qed.

(** X3: [handleLogChange], for the weight, the mood or the activity level,
    replaces the selected day of the week by a copy with that one field
    changed and leaves the other days, the metrics, the profile, the selected
    day, the summary and the loading flag as they are; the array of the
    previous state still denotes the previous days. *)
Theorem handleLogChange_days e st :
  valid st →
  ∃ st' old,
    handleLogChange e st = Some st'
    ∧ days st !! currentDayIndex st = Some old
    ∧ days st' = <[currentDayIndex st := mergeLogChange e old]> (days st)
    ∧ deref (objects st') (weeklyLog st) = days st
    ∧ metrics st' = metrics st ∧ profile st' = profile st
    ∧ currentDayIndex st' = currentDayIndex st
    ∧ summary st' = summary st ∧ loading st' = loading st.
Proof. apply handleLogChange_days_aux. Qed.

Lemma handleLogChange_days_witness :
  ∃ st' old,
    handleLogChange (ChangeMood "con energía") (nextDay freshInstall) = Some st'
    ∧ days (nextDay freshInstall) !! currentDayIndex (nextDay freshInstall)
      = Some old
    ∧ days st'
      = <[currentDayIndex (nextDay freshInstall)
          := mergeLogChange (ChangeMood "con energía") old]>
          (days (nextDay freshInstall))
    ∧ deref (objects st') (weeklyLog (nextDay freshInstall))
      = days (nextDay freshInstall)
    ∧ metrics st' = metrics (nextDay freshInstall)
    ∧ profile st' = profile (nextDay freshInstall)
    ∧ currentDayIndex st' = currentDayIndex (nextDay freshInstall)
    ∧ summary st' = summary (nextDay freshInstall)
    ∧ loading st' = loading (nextDay freshInstall).
Proof.
  apply (handleLogChange_days (ChangeMood "con energía") (nextDay freshInstall)).
  unfold valid. cbn. repeat split; try lia. repeat constructor.
Defined.

Lemma getFood_mergeFood f g v fd :
  getFood g (mergeFood f v fd) = if decide (g = f) then v else getFood g fd.
Proof. destruct f, g; by case_decide. Qed.

Lemma handleFoodChange_days_aux f value st :
  valid st → NoDup (weeklyLog st) →
  ∃ st' old new,
    handleFoodChange f value st = Some st'
    ∧ days st !! currentDayIndex st = Some old
    ∧ days st' = <[currentDayIndex st := new]> (days st)
    ∧ getFood f (food new) = value
    ∧ (∀ g, g ≠ f → getFood g (food new) = getFood g (food old))
    ∧ weight new = weight old ∧ mood new = mood old
    ∧ activityLevel new = activityLevel old
    ∧ weeklyLog st' = weeklyLog st
    ∧ metrics st' = metrics st ∧ profile st' = profile st
    ∧ currentDayIndex st' = currentDayIndex st
    ∧ summary st' = summary st ∧ loading st' = loading st.
Proof.
  intros Hv Hnd. destruct (valid_current_day st Hv) as (l & d & Hw & Hd).
  assert (handleFoodChange f value st
          = Some {| objects := <[l := setFood (mergeFood f value (food d)) d]>
                                 (objects st);
                    profile := profile st; weeklyLog := weeklyLog st;
                    metrics := metrics st;
                    currentDayIndex := currentDayIndex st;
                    summary := summary st; loading := loading st |}) as H.
  { unfold handleFoodChange. rewrite Hw. simpl. by rewrite Hd. }
  pose proof (handleFoodChange_valid _ _ _ _ Hv H) as Hv'.
  eexists _, d, (setFood (mergeFood f value (food d)) d).
  split; [exact H|].
  split. { rewrite days_lookup by done. unfold dayAt. rewrite Hw. done. }
  split.
  { apply list_eq. intros j. rewrite list_lookup_insert.
    rewrite days_length by done. rewrite !days_lookup by done.
    unfold dayAt. simpl. destruct Hv as (Hn & Hi & Hl & Ho).
    destruct (decide (currentDayIndex st = j ∧ currentDayIndex st < 7))
      as [[<- _]|Hne].
    - rewrite Hw. simpl. apply list_lookup_insert_eq. by eapply lookup_lt_Some.
    - destruct (weeklyLog st !! j) as [l'|] eqn:Hj; [|done]. simpl.
      apply list_lookup_insert_ne. intros <-. apply Hne.
      split; [|lia]. by eapply NoDup_lookup. }
  split. { simpl. rewrite getFood_mergeFood. by rewrite decide_True. }
  split.
  { intros g Hg. simpl. rewrite getFood_mergeFood. by rewrite decide_False. }
  by repeat split.
Qed.

(** X4: where no two positions of the week share a day object (as in every
    reachable state), [handleFoodChange] changes the named meal of the
    selected day and nothing else: not its other meals, its weight, its mood
    or its activity level, not the other days, not the rest of the state. *)
Theorem handleFoodChange_days f value st :
  valid st → NoDup (weeklyLog st) →
  ∃ st' old new,
    handleFoodChange f value st = Some st'
    ∧ days st !! currentDayIndex st = Some old
    ∧ days st' = <[currentDayIndex st := new]> (days st)
    ∧ getFood f (food new) = value
    ∧ (∀ g, g ≠ f → getFood g (food new) = getFood g (food old))
    ∧ weight new = weight old ∧ mood new = mood old
    ∧ activityLevel new = activityLevel old
    ∧ weeklyLog st' = weeklyLog st
    ∧ metrics st' = metrics st ∧ profile st' = profile st
    ∧ currentDayIndex st' = currentDayIndex st
    ∧ summary st' = summary st ∧ loading st' = loading st.
Proof. apply handleFoodChange_days_aux. Qed.

Lemma handleFoodChange_days_witness :
  ∃ st' old new,
    handleFoodChange Dinner "sopa" freshInstall = Some st'
    ∧ days freshInstall !! currentDayIndex freshInstall = Some old
    ∧ days st' = <[currentDayIndex freshInstall := new]> (days freshInstall)
    ∧ getFood Dinner (food new) = "sopa"%string
    ∧ (∀ g, g ≠ Dinner → getFood g (food new) = getFood g (food old))
    ∧ weight new = weight old ∧ mood new = mood old
    ∧ activityLevel new = activityLevel old
    ∧ weeklyLog st' = weeklyLog freshInstall
    ∧ metrics st' = metrics freshInstall ∧ profile st' = profile freshInstall
    ∧ currentDayIndex st' = currentDayIndex freshInstall
    ∧ summary st' = summary freshInstall ∧ loading st' = loading freshInstall.
Proof.
  apply (handleFoodChange_days Dinner "sopa" freshInstall).
  - unfold valid. cbn. repeat split; try lia. repeat constructor.
  - apply NoDup_seq.
Defined.

Lemma mergeFood_twice f v v' fd :
  mergeFood f v' (mergeFood f v fd) = mergeFood f v' fd.
Proof. by destruct f. Qed.

(** X5: two changes of the same meal in a row leave the state the second
    change alone would leave: each keystroke overwrites the previous one. *)
Theorem handleFoodChange_last_wins f v v' st :
  handleFoodChange f v st ≫= handleFoodChange f v' = handleFoodChange f v' st.
Proof.
  destruct (weeklyLog st !! currentDayIndex st) as [l|] eqn:Hw.
  2: { unfold handleFoodChange. rewrite Hw. done. }
  destruct (objects st !! l) as [d|] eqn:Hd.
  2: { unfold handleFoodChange. rewrite Hw. simpl. rewrite Hd. done. }
  unfold handleFoodChange. rewrite Hw. simpl. rewrite Hd. simpl.
  rewrite Hw. simpl.
  rewrite list_lookup_insert_eq by (by eapply lookup_lt_Some). simpl.
  by rewrite list_insert_insert_eq, mergeFood_twice.
Qed.

(** ** The first reset of a restored week *)

Lemma handle_untouched ev st st' :
  ev ≠ EvNewWeek true → untouched st → handle ev st = Some st' → untouched st'.
Proof.
  intros Hev [Hge Hinit] H. destruct ev; simpl in H;
    try (injection H as <-; by split).
  - unfold handleLogChange in H.
    destruct (weeklyLog st !! currentDayIndex st) as [l|] eqn:Hw;
      simpl in H; [|done].
    destruct (objects st !! l) as [d|] eqn:Hd; simpl in H; [|done].
    injection H as <-. split; simpl.
    + apply Forall_insert; [done|].
      destruct (decide (7 ≤ length (objects st))); [done|].
      specialize (Hinit (length (objects st)) ltac:(lia)).
      apply lookup_lt_Some in Hinit. lia.
    + intros l' Hl'. apply lookup_app_l_Some. by apply Hinit.
  - unfold handleFoodChange in H.
    destruct (weeklyLog st !! currentDayIndex st) as [l|] eqn:Hw;
      simpl in H; [|done].
    destruct (objects st !! l) as [d|] eqn:Hd; simpl in H; [|done].
    injection H as <-. split; simpl; [done|].
    intros l' Hl'. rewrite list_lookup_insert_ne; [by apply Hinit|].
    rewrite Forall_lookup in Hge. specialize (Hge _ _ Hw). lia.
  - injection H as <-. destruct confirmed; [done|]. by split.
Qed.

Lemma run_untouched evs st :
  Forall (λ ev, ev ≠ EvNewWeek true) evs → valid st → untouched st →
  ∃ st', run evs st = Some st' ∧ valid st' ∧ untouched st'.
Proof.
  intros Hevs. revert st.
  induction Hevs as [|ev evs Hev _ IH]; intros st Hv Hu.
  - simpl. eauto.
  - simpl. destruct (handle_total ev st Hv) as [st1 H1]. rewrite H1. simpl.
    apply IH; [by eapply handle_valid|by eapply handle_untouched].
Qed.

Lemma handleNewWeek_untouched st :
  (∀ l, l < 7 → objects st !! l = Some initialDailyLog) →
  days (handleNewWeek true st) = replicate 7 initialDailyLog.
Proof.
  intros Hinit. unfold days, deref, handleNewWeek, initialWeeklyLog. simpl.
  rewrite !Hinit by lia. done.
Qed.

(** X6: in a session that starts from a stored week, whatever is edited
    before it, the first confirmed [handleNewWeek] gives seven blank days:
    the edits went to the objects parsed from the store, not to the day
    objects of the module. *)
Theorem first_reset_after_restore_is_blank p ds m evs :
  length ds = 7 →
  Forall (λ ev, ev ≠ EvNewWeek true) evs →
  ∃ st,
    run evs (boot p (Some ds) m) = Some st
    ∧ days (handleNewWeek true st) = replicate 7 initialDailyLog.
Proof.
  intros Hds Hevs.
  destruct (run_untouched evs (boot p (Some ds) m) Hevs)
    as (st & Hrun & Hv & Hu).
  - apply boot_valid. by intros ? [= <-].
  - split; simpl.
    + apply Forall_forall. intros l Hl. apply elem_of_seq in Hl. lia.
    + intros l Hl. do 7 (destruct l as [|l]; [done|]). lia.
  - exists st. split; [done|]. apply handleNewWeek_untouched. apply Hu.
Qed.

Lemma first_reset_after_restore_is_blank_witness :
  ∃ st,
    run [EvFoodChange Breakfast "avena"; EvLogChange (ChangeWeight "70")]
      (boot None
         (Some (replicate 7 (mkDailyLog (Num 71) blankFood "bien" Activo)))
         None)
    = Some st
    ∧ days (handleNewWeek true st) = replicate 7 initialDailyLog.
Proof.
  apply (first_reset_after_restore_is_blank None
           (replicate 7 (mkDailyLog (Num 71) blankFood "bien" Activo)) None
           [EvFoodChange Breakfast "avena"; EvLogChange (ChangeWeight "70")]).
  - reflexivity.
  - repeat constructor; discriminate.
Defined.

(** ** While a request is pending, and when it settles *)

Lemma handle_loading ev st st' :
  handle ev st = Some st' → loading st' = loading st.
Proof.
  intros H. destruct ev; simpl in H.
  - unfold handleLogChange in H. open_handler H l d Hw Hd. done.
  - unfold handleFoodChange in H. open_handler H l d Hw Hd. done.
  - by injection H as <-.
  - injection H as <-. by destruct confirmed.
  - by injection H as <-.
  - by injection H as <-.
  - by injection H as <-.
Qed.

Lemma handle_summary_None ev st st' :
  handle ev st = Some st' → summary st = None → summary st' = None.
Proof.
  intros H Hs. destruct ev; simpl in H.
  - unfold handleLogChange in H. open_handler H l d Hw Hd. done.
  - unfold handleFoodChange in H. open_handler H l d Hw Hd. done.
  - by injection H as <-.
  - injection H as <-. by destruct confirmed.
  - by injection H as <-.
  - by injection H as <-.
  - by injection H as <-.
Qed.

Lemma run_pending evs st st' :
  run evs st = Some st' →
  loading st' = loading st ∧ (summary st = None → summary st' = None).
Proof.
  revert st. induction evs as [|ev evs IH]; intros st H; simpl in H.
  - by injection H as <-.
  - destruct (handle ev st) as [st1|] eqn:H1; simpl in H; [|done].
    destruct (IH _ H) as [Hl Hs]. split.
    + rewrite Hl. by eapply handle_loading.
    + intros Hn. apply Hs. by eapply handle_summary_None.
Qed.

(** The handlers do not look at the summary or at the loading flag. *)
Lemma handle_sameData ev a b a' :
  sameData a b → handle ev a = Some a' →
  ∃ b', handle ev b = Some b' ∧ sameData a' b'.
Proof.
  intros (Ho & Hp & Hw & Hm & Hi) H.
  destruct ev; simpl in H;
    try (injection H as <-; eexists; (split; [reflexivity|]);
         try destruct confirmed;
         unfold sameData; cbn -[Nat.max Nat.min];
         by rewrite ?Ho, ?Hp, ?Hw, ?Hm, ?Hi).
  - unfold handle, handleLogChange in *. rewrite <- Hw, <- Hi, <- Ho.
    destruct (weeklyLog a !! currentDayIndex a) as [l|]; simpl in *; [|done].
    destruct (objects a !! l) as [d|]; simpl in *; [|done].
    injection H as <-. eexists. split; [done|].
    unfold sameData; simpl. by rewrite ?Ho, ?Hp, ?Hw, ?Hm, ?Hi.
  - unfold handle, handleFoodChange in *. rewrite <- Hw, <- Hi, <- Ho.
    destruct (weeklyLog a !! currentDayIndex a) as [l|]; simpl in *; [|done].
    destruct (objects a !! l) as [d|]; simpl in *; [|done].
    injection H as <-. eexists. split; [done|].
    unfold sameData; simpl. by rewrite ?Ho, ?Hp, ?Hw, ?Hm, ?Hi.
Qed.

Lemma run_sameData evs a b a' :
  sameData a b → run evs a = Some a' →
  ∃ b', run evs b = Some b' ∧ sameData a' b'.
Proof.
  revert a b. induction evs as [|ev evs IH]; intros a b Hs H; simpl in *.
  - injection H as <-. eauto.
  - destruct (handle ev a) as [a1|] eqn:H1; simpl in H; [|done].
    destruct (handle_sameData _ _ _ _ Hs H1) as (b1 & -> & Hs1). simpl.
    by eapply IH.
Qed.

Lemma filter_all {A} (f : A → bool) (l : list A) :
  Forall (λ x, f x = true) l → List.filter f l = l.
Proof.
  induction 1 as [|x l Hx _ IH]; simpl; [done|]. by rewrite Hx, IH.
Qed.

Lemma existsb_lookup {A} (f : A → bool) (l : list A) i x :
  l !! i = Some x → f x = true → existsb f l = true.
Proof.
  intros Hi Hx. apply existsb_exists. exists x. split; [|done].
  apply list_elem_of_In. by eapply list_elem_of_lookup_2.
Qed.

Lemma nonempty_metricsValues f value m :
  nonempty value = true →
  existsb nonempty (metricsValues (mergeMetrics f value m)) = true.
Proof. intros H. destruct f; simpl; rewrite H; by rewrite ?orb_true_r. Qed.

Section RequestFacts.

Context (NumberToString : number → string) (instructions : string).

(** X7: from the click that issues the request until the request settles,
    whatever the user does meanwhile, the generate button stays disabled and
    neither the summary nor the download button is shown. *)
Theorem generateSummary_pending st meanwhile :
  valid st →
  hasData (days st) (metrics st) = true →
  ∃ st2,
    run meanwhile (generateSummary_start NumberToString instructions st).1.1
    = Some st2
    ∧ generateDisabled st2 = true
    ∧ summaryShown st2 = false
    ∧ shareShown st2 = false.
Proof.
  intros Hv Hd.
  pose proof (generateSummary_start_valid NumberToString instructions st Hv)
    as Hv1.
  unfold generateSummary_start in *. rewrite Hd in *. simpl in *.
  destruct (run_valid meanwhile _ Hv1) as (st2 & Hrun & _).
  exists st2. split; [done|].
  destruct (run_pending _ _ _ Hrun) as [Hl Hs]. simpl in *.
  specialize (Hs eq_refl).
  unfold generateDisabled, shareShown, summaryShown. by rewrite Hl, Hs.
Qed.

(** X8: when there is data, [generateSummary] sends one request, whose
    prompt is built from the week, the metrics and the profile at the click;
    a resolved request stores its text as the summary, also when the week was
    reset in the meantime, and a rejected one leaves no summary and gives the
    error notice.  The tracked data at the end are those the events handled
    in the meantime alone would give. *)
Theorem generateSummary_outcome st meanwhile answer :
  valid st →
  hasData (days st) (metrics st) = true →
  ∃ st' st2,
    run meanwhile st = Some st2
    ∧ sameData st' st2
    ∧ loading st' = false
    ∧ generateSummary NumberToString instructions meanwhile answer st
      = Some (st',
              (GenerateContent "gemini-2.5-flash"
                 (buildPrompt NumberToString instructions (profile st)
                    (days st) (metrics st))
               :: match answer with
                  | Resolved _ => []
                  | Rejected =>
                      [ConsoleError;
                       Alert "Hubo un error al generar el resumen. Por favor, inténtalo de nuevo."]
                  end)%list)
    ∧ summary st'
      = match answer with
        | Resolved text => Some {| content := text |}
        | Rejected => None
        end.
Proof.
  intros Hv Hd.
  pose proof (generateSummary_start_valid NumberToString instructions st Hv)
    as Hv1.
  unfold generateSummary, generateSummary_start in *. rewrite Hd in *.
  simpl in *.
  destruct (run_valid meanwhile _ Hv1) as (st1 & Hrun & _). rewrite Hrun.
  simpl.
  assert (sameData (setSummary None (setLoading true st)) st) as Hs0
    by (by repeat split).
  destruct (run_sameData meanwhile _ st _ Hs0 Hrun) as (st2 & Hrun2 & Hs).
  destruct (run_pending _ _ _ Hrun) as [_ Hnone]. specialize (Hnone eq_refl).
  destruct answer as [text|]; simpl.
  - exists (setLoading false (setSummary (Some {| content := text |}) st1)), st2.
    split; [done|]. split; [exact Hs|]. by repeat split.
  - exists (setLoading false st1), st2.
    split; [done|]. split; [exact Hs|]. by repeat split.
Qed.

(** X9: the day-list of the prompt has one line for each day of the week, in
    order, whatever the days hold: the dash, the name of the day and the data
    of the day, which always include the activity level. *)
Theorem dayList_one_line_per_day log :
  dayList NumberToString log = imap (dayLine NumberToString) log
  ∧ length (dayList NumberToString log) = length log
  ∧ ∀ i day, log !! i = Some day →
      dayList NumberToString log !! i
      = Some ("- " ++ default "undefined" (dayNames !! i) ++ ": "
              ++ dayData NumberToString day)%string.
Proof.
  assert (dayList NumberToString log = imap (dayLine NumberToString) log) as E.
  { unfold dayList. apply filter_all. apply Forall_lookup. intros i s Hi.
    rewrite list_lookup_imap in Hi.
    destruct (log !! i) as [d|]; simplify_eq/=.
    apply (dayIncluded_always NumberToString). }
  split; [done|]. rewrite E. split; [apply length_imap|].
  intros i day Hi. rewrite list_lookup_imap, Hi. simpl.
  unfold dayLine. by rewrite dayData_nonempty.
Qed.

(** X10: after one entry of a weight greater than 0, of a mood, of a meal or
    of a metrics note that is not empty, [generateSummary] finds data and
    issues the request. *)
Theorem entry_enables_generation ev st :
  valid st → NoDup (weeklyLog st) → entersData ev = true →
  ∃ st',
    handle ev st = Some st'
    ∧ (generateSummary_start NumberToString instructions st').2 = true.
Proof.
  intros Hv Hnd Hev.
  assert (∀ st', hasData (days st') (metrics st') = true →
            (generateSummary_start NumberToString instructions st').2 = true)
    as Hgo.
  { intros st' H. unfold generateSummary_start. by rewrite H. }
  destruct ev as [e|f value|f value| | | |]; try done; simpl in *.
  - destruct (handleLogChange_days_aux e st Hv)
      as (st' & old & H & Hold & Hdays & _).
    exists st'. split; [done|]. apply Hgo. unfold hasData.
    apply orb_true_iff. left.
    apply (existsb_lookup _ _ (currentDayIndex st) (mergeLogChange e old)).
    + rewrite Hdays. apply list_lookup_insert_eq. by eapply lookup_lt_Some.
    + unfold dayHasData. destruct e; try done; simpl; rewrite Hev;
        by rewrite ?orb_true_r.
  - destruct (handleFoodChange_days_aux f value st Hv Hnd)
      as (st' & old & new & H & Hold & Hdays & Hf & _).
    exists st'. split; [done|]. apply Hgo. unfold hasData.
    apply orb_true_iff. left.
    apply (existsb_lookup _ _ (currentDayIndex st) new).
    + rewrite Hdays. apply list_lookup_insert_eq. by eapply lookup_lt_Some.
    + unfold dayHasData. apply orb_true_iff. left. apply orb_true_iff. right.
      clear -Hf Hev. destruct new as [w [b l s d o] mo a], f; simpl in *;
        subst; rewrite Hev; by rewrite ?orb_true_r.
  - eexists. split; [done|]. apply Hgo. unfold hasData. simpl.
    apply orb_true_iff. right. by apply nonempty_metricsValues.
Qed.

End RequestFacts.

Lemma generateSummary_pending_witness :
  ∃ st2,
    run [EvNextDay; EvFoodChange Lunch "arroz"; EvNewWeek true]
      (generateSummary_start (λ _, ""%string) ""
         (handleMetricsChange Bmi "22" freshInstall)).1.1
    = Some st2
    ∧ generateDisabled st2 = true
    ∧ summaryShown st2 = false
    ∧ shareShown st2 = false.
Proof.
  apply (generateSummary_pending (λ _, ""%string) ""
           (handleMetricsChange Bmi "22" freshInstall)
           [EvNextDay; EvFoodChange Lunch "arroz"; EvNewWeek true]).
  - unfold valid. cbn. repeat split; try lia. repeat constructor.
  - reflexivity.
Defined.

Lemma generateSummary_outcome_witness :
  ∃ st' st2,
    run [EvNewWeek true] (handleMetricsChange Bmi "22" freshInstall) = Some st2
    ∧ sameData st' st2
    ∧ loading st' = false
    ∧ generateSummary (λ _, ""%string) "" [EvNewWeek true]
        (Resolved "<h3>Informe</h3>") (handleMetricsChange Bmi "22" freshInstall)
      = Some (st',
              (GenerateContent "gemini-2.5-flash"
                 (buildPrompt (λ _, ""%string) ""
                    (profile (handleMetricsChange Bmi "22" freshInstall))
                    (days (handleMetricsChange Bmi "22" freshInstall))
                    (metrics (handleMetricsChange Bmi "22" freshInstall)))
               :: [])%list)
    ∧ summary st' = Some {| content := "<h3>Informe</h3>" |}.
Proof.
  apply (generateSummary_outcome (λ _, ""%string) ""
           (handleMetricsChange Bmi "22" freshInstall) [EvNewWeek true]
           (Resolved "<h3>Informe</h3>")).
  - unfold valid. cbn. repeat split; try lia. repeat constructor.
  - reflexivity.
Defined.

Lemma entry_enables_generation_witness :
  ∃ st',
    handle (EvLogChange (ChangeWeight "70.5")) freshInstall = Some st'
    ∧ (generateSummary_start (λ _, ""%string) "" st').2 = true.
Proof.
  apply (entry_enables_generation (λ _, ""%string) ""
           (EvLogChange (ChangeWeight "70.5")) freshInstall).
  - unfold valid. cbn. repeat split; try lia. repeat constructor.
  - apply NoDup_seq.
  - reflexivity.
Defined.

(** ** The progress figure and its bar *)

Section ProgressFacts.

Context (NumberToString : number → string).
Local Open Scope Q_scope.

Lemma ratio_sign t d :
  0 < d →
  (t <= 0 → t / d * 100 <= 0) ∧ (0 <= t → 0 <= t / d * 100)
  ∧ (t <= d → t / d * 100 <= 100) ∧ (d <= t → 100 <= t / d * 100).
Proof.
  intros Hd.
  assert (Hk : 0 < / d) by (by apply Qinv_lt_0_compat).
  assert (Hdk : d * / d == 1) by (apply Qmult_inv_r; lra).
  assert (Hm : ∀ a b, a <= b → a * / d <= b * / d).
  { intros a b Hab. apply Qmult_le_compat_r; lra. }
  unfold Qdiv. set (k := / d) in *.
  repeat split; intros H.
  - specialize (Hm t 0 H). lra.
  - specialize (Hm 0 t H). lra.
  - specialize (Hm t d H). lra.
  - specialize (Hm d t H). lra.
Qed.

Lemma mul180_mono a b :
  le a b = true → le (mul (Num 180) a) (mul (Num 180) b) = true.
Proof.
  destruct a as [|[]|p], b as [|[]|q]; try done; simpl.
  rewrite !le_Num. lra.
Qed.

(** [180 * (progress / 100)] for a progress between 0 and 100. *)
Lemma width_range p :
  le zero p = true → le p (Num 100) = true →
  le zero (rounded (mul (Num 180) (rounded (div p (Num 100))))) = true
  ∧ le (rounded (mul (Num 180) (rounded (div p (Num 100))))) (Num 180) = true.
Proof.
  intros H0 H100.
  assert (0 < 100) as Hpos by done.
  apply (div_mono _ _ 100 Hpos), rounded_mono, mul180_mono, rounded_mono in H0.
  apply (div_mono _ _ 100 Hpos), rounded_mono, mul180_mono, rounded_mono
    in H100.
  split; [exact H0|exact H100].
Qed.

Lemma width_full p :
  strict_eq p (Num 100) = true →
  strict_eq (rounded (mul (Num 180) (rounded (div p (Num 100))))) (Num 180)
  = true.
Proof.
  destruct p as [|[]|q]; try done. rewrite strict_eq_Num. intros E.
  cbn [div]. change (Qeq_bool 100 0) with false. cbn [rounded].
  rewrite (round_comp (q / 100) 1) by (rewrite E; reflexivity).
  reflexivity.
Qed.

(** The progress is 100 or a clamped number, whatever the arguments. *)
Lemma progress_script i c g :
  ∃ x, progress (calculateProgress NumberToString (ops := script_ops) i c g)
       = VNum (if strictEquals i g then Num 100
               else max zero (min x (Num 100))).
Proof.
  unfold calculateProgress.
  cbn [num_eq num_gt num_sub num_mul num_div num_abs num_min num_max num_lit
       script_ops ToNumber].
  replace (round (inject_Z 100)) with (Num 100) by (by vm_compute).
  replace (round (inject_Z 0)) with zero by (by vm_compute).
  destruct (strictEquals i g); cbn [progress]; [by exists NaN|by eexists].
Qed.

Lemma progress_script_range i c g :
  ∃ p,
    progress (calculateProgress NumberToString (ops := script_ops) i c g)
    = VNum p
    ∧ (p = NaN ∨ (le zero p = true ∧ le p (Num 100) = true)).
Proof.
  destruct (progress_script i c g) as [x ->]. eexists. split; [done|].
  destruct (strictEquals i g); [by right|].
  destruct x as [|s|q]; [by left|right..]; by apply clamp_range.
Qed.

(** X11: whatever the three arguments are at run time (Numbers, finite or
    not, or the strings the form stores), the progress figure of
    [calculateProgress] is a Number that is NaN or lies between 0 and 100.
    NaN is reached on finite weights: with the initial weight 1e308 and the
    current weight and the goal -1e308, the distance covered and the total
    distance both overflow. *)
Theorem calculateProgress_range i c g :
  (∃ p,
     progress (calculateProgress NumberToString (ops := script_ops) i c g)
     = VNum p
     ∧ (p = NaN ∨ (le zero p = true ∧ le p (Num 100) = true)))
  ∧ progress (calculateProgress NumberToString (ops := script_ops)
                (VNum (parseFloat "1e308")) (VNum (parseFloat "-1e308"))
                (VNum (parseFloat "-1e308")))
    = VNum NaN.
Proof. split; [apply progress_script_range|by vm_compute]. Qed.

(** X13: the filled rectangle that [handleShareSummary] draws, of width
    [180 * (progress / 100)], whatever the arguments of [calculateProgress]
    are at run time: its width is NaN when the progress is, and otherwise it
    stays on the track, between 0 and 180; it is 180 when the progress is
    100. *)
Theorem progressBarWidth_within_track i c g :
  ∃ p w,
    progress (calculateProgress NumberToString (ops := script_ops) i c g)
    = VNum p
    ∧ progressBarWidth (ops := script_ops) (VNum p) = VNum w
    ∧ (p = NaN → w = NaN)
    ∧ (p ≠ NaN → le zero w = true ∧ le w (Num 180) = true)
    ∧ (strict_eq p (Num 100) = true → strict_eq w (Num 180) = true).
Proof.
  destruct (progress_script_range i c g) as (p & Hp & Hr).
  exists p, (rounded (mul (Num 180) (rounded (div p (Num 100))))).
  split; [done|]. split.
  { unfold progressBarWidth.
    cbn [num_mul num_div num_lit script_ops ToNumber].
    replace (round (inject_Z 100)) with (Num 100) by (by vm_compute).
    by replace (round (inject_Z 180)) with (Num 180) by (by vm_compute). }
  split; [by intros ->|]. split.
  - intros Hn. destruct Hr as [->|[H0 H100]]; [done|]. by apply width_range.
  - apply width_full.
Qed.

End ProgressFacts.

(** X14: the last recorded weight, day by day: a day with a weight greater
    than 0 added at the end of the log becomes the last weight, any other day
    leaves it as it was; and the last weight is greater than 0 or is the
    initial weight of the profile. *)
Theorem lastWeight_snoc log d p :
  TrackerScreen_lastWeight (log ++ [d])%list p
  = (if gt (weight d) zero then weight d else TrackerScreen_lastWeight log p)
  ∧ (gt (TrackerScreen_lastWeight log p) zero = true
     ∨ TrackerScreen_lastWeight log p = initialWeight p).
Proof.
  unfold TrackerScreen_lastWeight. split.
  - rewrite List.filter_app. simpl.
    destruct (gt (weight d) zero).
    + by rewrite last_snoc.
    + by rewrite app_nil_r.
  - destruct (last (List.filter (λ d, gt (weight d) zero) log)) as [x|] eqn:E;
      [left|by right].
    apply last_Some_elem_of in E. apply list_elem_of_In in E.
    apply List.filter_In in E. tauto.
Qed.

(** ** Persistence *)

Section StickyFacts.

Context {T : Type}.
Variable stringify : T → option string.
Variable parse : string → option T.

(** X15: a value that [JSON.parse] reads back from what [JSON.stringify]
    wrote is the initial value of the cell at the next mount, whatever was
    stored under the key before; the cells under other keys are not affected;
    a missing key and a stored text that does not parse both give the
    default. *)
Theorem useStickyState_round_trip storage key key' value value' defaultValue :
  parse <$> stringify value = Some (Some value) →
  stickyInitial parse (stickyEffect stringify key value storage)
    defaultValue key = value
  ∧ stickyInitial parse
      (stickyEffect stringify key value
         (stickyEffect stringify key value' storage))
      defaultValue key = value
  ∧ (key ≠ key' →
     stickyInitial parse (stickyEffect stringify key value storage)
       defaultValue key'
     = stickyInitial parse storage defaultValue key')
  ∧ (storage !! key' = None →
     stickyInitial parse storage defaultValue key' = defaultValue)
  ∧ (∀ text, storage !! key' = Some text → parse text = None →
       stickyInitial parse storage defaultValue key' = defaultValue).
Proof.
  intros Hrt. unfold stickyInitial, stickyStored, stickyEffect.
  destruct (stringify value) as [text|] eqn:Hs; [|done].
  simpl in Hrt. injection Hrt as Hp.
  split; [by rewrite lookup_insert_eq; simpl; rewrite Hp|].
  split; [by rewrite lookup_insert_eq; simpl; rewrite Hp|].
  split; [intros Hne; by rewrite lookup_insert_ne|].
  split; [by intros ->|]. intros t -> Ht. simpl. by rewrite Ht.
Qed.

End StickyFacts.

Lemma useStickyState_round_trip_witness :
  stickyInitial (λ s, Some s)
    (stickyEffect (λ s, Some s) "app-view" "tracker" (∅ : gmap string string))
    "profile" "app-view" = "tracker".
Proof.
  apply (useStickyState_round_trip (λ s, Some s) (λ s, Some s) ∅
           "app-view" "app-view" "tracker" "profile" "profile").
  reflexivity.
Defined.

Lemma deref_restored ds :
  deref (initialStore ++ ds)%list (seq (length initialStore) (length ds)) = ds.
Proof.
  apply list_eq. intros i. rewrite deref_lookup.
  - destruct (decide (i < length ds)) as [Hi|Hi].
    + rewrite lookup_seq_lt by done. cbn [mbind option_bind].
      rewrite lookup_app_r by lia.
      by replace (length initialStore + i - length initialStore) with i by lia.
    + rewrite lookup_seq_ge by lia. simpl. symmetry. apply lookup_ge_None. lia.
  - apply Forall_forall. intros l Hl. apply elem_of_seq in Hl.
    rewrite length_app. lia.
Qed.

Section ReloadFacts.

Variable stringifyProfile : option UserProfile → option string.
Variable parseProfile : string → option (option UserProfile).
Variable stringifyWeek : list DailyLog → option string.
Variable parseWeek : string → option (list DailyLog).
Variable stringifyMetrics : Metrics → option string.
Variable parseMetrics : string → option Metrics.

(** X16: closing and reopening the application.  When the profile, the week
    and the metrics are read back from what was written, the state after the
    next mount has the same days, metrics and profile; it shows the first
    day, has no summary and is not loading; and its week holds fresh objects,
    none of the seven day objects of the module. *)
Theorem reload_restores st storage :
  parseProfile <$> stringifyProfile (profile st) = Some (Some (profile st)) →
  parseWeek <$> stringifyWeek (days st) = Some (Some (days st)) →
  parseMetrics <$> stringifyMetrics (metrics st) = Some (Some (metrics st)) →
  let st' :=
    App_mount parseProfile parseWeek parseMetrics
      (App_persist stringifyProfile stringifyWeek stringifyMetrics st storage)
  in
  days st' = days st
  ∧ metrics st' = metrics st
  ∧ profile st' = profile st
  ∧ currentDayIndex st' = 0
  ∧ summary st' = None
  ∧ loading st' = false
  ∧ Forall (λ l, 7 ≤ l) (weeklyLog st').
Proof.
  intros Hp Hw Hm st'. subst st'. unfold App_mount, App_persist.
  unfold stickyInitial, stickyStored, stickyEffect.
  destruct (stringifyProfile (profile st)) as [tp|]; [|done].
  destruct (stringifyWeek (days st)) as [tw|]; [|done].
  destruct (stringifyMetrics (metrics st)) as [tm|]; [|done].
  simpl in Hp, Hw, Hm. injection Hp as Hp. injection Hw as Hw.
  injection Hm as Hm.
  rewrite lookup_insert_eq.
  rewrite (lookup_insert_ne _ "user-metrics" "weekly-log") by done.
  rewrite lookup_insert_eq.
  rewrite (lookup_insert_ne _ "user-metrics" "user-profile") by done.
  rewrite (lookup_insert_ne _ "weekly-log" "user-profile") by done.
  rewrite lookup_insert_eq. simpl. rewrite Hp, Hw, Hm. simpl.
  split; [apply deref_restored|]. repeat split.
  apply Forall_forall. intros l Hl. apply elem_of_seq in Hl. simpl in Hl. lia.
Qed.

End ReloadFacts.

Lemma reload_restores_witness :
  let st := handleMetricsChange Bmi "22" freshInstall in
  let st' :=
    App_mount (λ _, Some None) (λ _, Some (days st)) (λ _, Some (metrics st))
      (App_persist (λ _, Some "null"%string) (λ _, Some "[]"%string)
         (λ _, Some "{}"%string) st ∅)
  in
  days st' = days st
  ∧ metrics st' = metrics st
  ∧ profile st' = profile st
  ∧ currentDayIndex st' = 0
  ∧ summary st' = None
  ∧ loading st' = false
  ∧ Forall (λ l, 7 ≤ l) (weeklyLog st').
Proof.
  intros st.
  apply (reload_restores (λ _, Some "null"%string) (λ _, Some None)
           (λ _, Some "[]"%string) (λ _, Some (days st))
           (λ _, Some "{}"%string) (λ _, Some (metrics st)) st ∅);
    reflexivity.
Defined.

(** ** The name of the exported file *)

Lemma underscoreWhiteSpace_unfold s :
  underscoreWhiteSpace s
  = match white_head s with
    | Some r => String "_" (underscoreWhiteSpace r)
    | None =>
        match s with
        | String c r => String c (underscoreWhiteSpace r)
        | EmptyString => ""
        end
    end.
Proof.
  destruct s as [|c r]; [done|]. unfold white_head.
  cbn [underscoreWhiteSpace]. repeat case_match; reflexivity.
Qed.
Lemma white_head_shorter s r :
  white_head s = Some r → String.length r < String.length s.
Proof.
  destruct s as [|c [|c2 [|c3 r3]]]; unfold white_head;
    repeat case_match; intros; simplify_eq; simpl; lia.
Qed.

(** An underscore is no part of a white space character. *)
Lemma ws_underscore n n2 n3 :
  ws1 95 = false ∧ ws2 95 n2 = false ∧ ws3 95 n2 n3 = false
  ∧ ws2 n 95 = false ∧ ws3 n 95 n3 = false ∧ ws3 n n2 95 = false.
Proof.
  unfold ws1, ws2, ws3. simpl.
  rewrite ?andb_false_r, ?orb_false_r, ?andb_false_l. done.
Qed.

Lemma white_head_underscore r : white_head (String "_" r) = None.
Proof.
  unfold white_head. change (N_of_ascii "_") with 95%N.
  destruct (ws_underscore 0 0 0) as (-> & _).
  destruct r as [|c2 r2]; [done|].
  destruct (ws_underscore 0 (N_of_ascii c2) 0) as (_ & -> & _).
  destruct r2 as [|c3 r3]; [done|].
  by destruct (ws_underscore 0 (N_of_ascii c2) (N_of_ascii c3))
    as (_ & _ & -> & _).
Qed.

(** The first byte of the result is the first byte of the argument, or an
    underscore. *)
Lemma underscoreWhiteSpace_head s :
  underscoreWhiteSpace s = ""
  ∨ (∃ r, underscoreWhiteSpace s = String "_" r)
  ∨ (∃ c r, s = String c r ∧ white_head s = None
            ∧ underscoreWhiteSpace s = String c (underscoreWhiteSpace r)).
Proof.
  rewrite underscoreWhiteSpace_unfold.
  destruct (white_head s) eqn:E; [right; left; eauto|].
  destruct s as [|c r]; [by left|]. right; right. eauto.
Qed.

(** Replacing in the tail does not complete a white space character at the
    head. *)
Lemma white_head_replaced_tail c r :
  white_head (String c r) = None →
  white_head (String c (underscoreWhiteSpace r)) = None.
Proof.
  intros H.
  destruct (underscoreWhiteSpace_head r) as [E|[[t E]|(c2 & r2 & -> & H2 & E)]];
    rewrite E.
  - unfold white_head in *. by destruct (ws1 (N_of_ascii c)).
  - unfold white_head in *. change (N_of_ascii "_") with 95%N.
    destruct (ws1 (N_of_ascii c)); [done|].
    destruct (ws_underscore (N_of_ascii c) 0 0) as (_ & _ & _ & -> & _).
    destruct t as [|c3 t]; [done|].
    by destruct (ws_underscore (N_of_ascii c) 0 (N_of_ascii c3))
      as (_ & _ & _ & _ & -> & _).
  - destruct (underscoreWhiteSpace_head r2)
      as [E2|[[t E2]|(c3 & r3 & -> & H3 & E2)]]; rewrite E2.
    + unfold white_head in *. destruct (ws1 (N_of_ascii c)); [done|].
      by destruct (ws2 (N_of_ascii c) (N_of_ascii c2)).
    + unfold white_head in *. change (N_of_ascii "_") with 95%N.
      destruct (ws1 (N_of_ascii c)); [done|].
      destruct (ws2 (N_of_ascii c) (N_of_ascii c2)); [done|].
      by destruct (ws_underscore (N_of_ascii c) (N_of_ascii c2) 0)
        as (_ & _ & _ & _ & _ & ->).
    + unfold white_head in *. destruct (ws1 (N_of_ascii c)); [done|].
      destruct (ws2 (N_of_ascii c) (N_of_ascii c2)); [done|].
      by destruct (ws3 (N_of_ascii c) (N_of_ascii c2) (N_of_ascii c3)).
Qed.

Lemma underscoreWhiteSpace_whiteFree s :
  whiteFree (underscoreWhiteSpace s) = true.
Proof.
  remember (String.length s) as n eqn:Hn. revert s Hn.
  induction (lt_wf n) as [n _ IH]. intros s ->.
  rewrite underscoreWhiteSpace_unfold.
  destruct (white_head s) as [r|] eqn:Hw.
  - cbn [whiteFree]. rewrite white_head_underscore.
    eapply IH; [|reflexivity]. by apply white_head_shorter.
  - destruct s as [|c r]; [done|]. cbn [whiteFree].
    rewrite white_head_replaced_tail by done.
    eapply IH; [|reflexivity]. simpl. lia.
Qed.

(** A byte below 128 is no part of a white space character of several
    bytes. *)
Lemma ws_ascii b n n2 n3 :
  (b < 128)%N →
  ws2 b n2 = false ∧ ws3 b n2 n3 = false
  ∧ ws2 n b = false ∧ ws3 n b n3 = false ∧ ws3 n n2 b = false.
Proof.
  intros Hb.
  assert (Hne : ∀ k, (128 <=? k)%N = true → (b =? k)%N = false).
  { intros k Hk. apply N.leb_le in Hk. apply N.eqb_neq. lia. }
  assert (Hle : (128 <=? b)%N = false) by (apply N.leb_gt; lia).
  unfold ws2, ws3. rewrite Hle, !Hne by reflexivity.
  repeat (rewrite ?andb_false_r, ?andb_false_l, ?orb_false_r, ?orb_false_l;
          simpl).
  done.
Qed.

Lemma whiteFree_ascii_cons b s :
  ws1 (N_of_ascii b) = false → (N_of_ascii b < 128)%N →
  whiteFree (String b s) = whiteFree s.
Proof.
  intros H1 Hb. cbn [whiteFree]. unfold white_head. rewrite H1.
  destruct s as [|c2 [|c3 r3]]; try done.
  - by destruct (ws_ascii _ 0 (N_of_ascii c2) 0 Hb) as (-> & _).
  - destruct (ws_ascii _ 0 (N_of_ascii c2) (N_of_ascii c3) Hb) as (-> & -> & _).
    done.
Qed.

Lemma whiteFree_app_ascii x b t :
  (N_of_ascii b < 128)%N →
  whiteFree x = true → whiteFree (String b t) = true →
  whiteFree (x ++ String b t) = true.
Proof.
  intros Hb Hx Ht. induction x as [|c r IH]; [done|].
  change (String c r ++ String b t) with (String c (r ++ String b t)).
  cbn [whiteFree] in Hx |- *.
  destruct (white_head (String c r)) eqn:Hw; [done|].
  assert (white_head (String c (r ++ String b t)) = None) as ->;
    [|by apply IH].
  unfold white_head in *. destruct (ws1 (N_of_ascii c)); [done|].
  destruct r as [|c2 r2].
  - change ("" ++ String b t) with (String b t). cbv iota beta.
    destruct (ws_ascii _ (N_of_ascii c) 0 0 Hb) as (_ & _ & -> & _).
    destruct t as [|c3 t']; [done|].
    by destruct (ws_ascii _ (N_of_ascii c) 0 (N_of_ascii c3) Hb)
      as (_ & _ & _ & -> & _).
  - change (String c2 r2 ++ String b t) with (String c2 (r2 ++ String b t)).
    cbv iota beta.
    destruct (ws2 (N_of_ascii c) (N_of_ascii c2)); [done|].
    destruct r2 as [|c3 r3].
    + change ("" ++ String b t) with (String b t). cbv iota beta.
      by destruct (ws_ascii _ (N_of_ascii c) (N_of_ascii c2) 0 Hb)
        as (_ & _ & _ & _ & ->).
    + change (String c3 r3 ++ String b t) with (String c3 (r3 ++ String b t)).
      cbv iota beta.
      by destruct (ws3 (N_of_ascii c) (N_of_ascii c2) (N_of_ascii c3)).
Qed.

Lemma whiteFree_unchanged s :
  whiteFree s = true → underscoreWhiteSpace s = s.
Proof.
  induction s as [|c r IH]; [done|]. intros H.
  rewrite underscoreWhiteSpace_unfold. cbn [whiteFree] in H.
  destruct (white_head (String c r)); [done|]. by rewrite IH.
Qed.

Lemma whiteFree_plain_prefix p s :
  plainAscii p = true → whiteFree (p ++ s) = whiteFree s.
Proof.
  induction p as [|b p IH]; [done|]. cbn [plainAscii].
  rewrite !andb_true_iff, negb_true_iff, N.ltb_lt. intros [[H1 Hb] Hp].
  change (String b p ++ s) with (String b (p ++ s)).
  rewrite whiteFree_ascii_cons by done. by apply IH.
Qed.


(** X17: the name under which [handleShareSummary] saves the file holds no
    white space character, whatever the name in the profile; a name without
    white space is taken as it is; and replacing a second time changes
    nothing. *)
Theorem pdfFileName_whiteFree name :
  whiteFree (pdfFileName name) = true
  ∧ (whiteFree name = true →
     pdfFileName name = ("resumen_fitness_" ++ name ++ ".pdf")%string)
  ∧ underscoreWhiteSpace (underscoreWhiteSpace name) = underscoreWhiteSpace name.
Proof.
  pose proof (underscoreWhiteSpace_whiteFree name) as Hf.
  split; [|split].
  - unfold pdfFileName. rewrite whiteFree_plain_prefix by reflexivity.
    apply whiteFree_app_ascii; [reflexivity|done|reflexivity].
  - intros H. unfold pdfFileName. by rewrite whiteFree_unchanged.
  - by apply whiteFree_unchanged.
Qed.

Lemma pdfFileName_whiteFree_witness :
  pdfFileName "Ana" = ("resumen_fitness_" ++ "Ana" ++ ".pdf")%string.
Proof. apply (pdfFileName_whiteFree "Ana"). reflexivity. Defined.

(** ** The profile form *)

Lemma trimStart_unfold s :
  trimStart s = match white_head s with Some r => trimStart r | None => s end.
Proof.
  destruct s as [|c r]; [done|]. unfold white_head, ws1, ws2, ws3.
  cbn [trimStart]. repeat case_match; reflexivity.
Qed.

Lemma trimStart_white_head s : white_head (trimStart s) = None.
Proof.
  remember (String.length s) as n eqn:Hn. revert s Hn.
  induction (lt_wf n) as [n _ IH]. intros s ->.
  rewrite trimStart_unfold. destruct (white_head s) as [r|] eqn:Hw; [|done].
  eapply IH; [|reflexivity]. by apply white_head_shorter.
Qed.

Lemma trimStart_idemp s : trimStart (trimStart s) = trimStart s.
Proof.
  rewrite (trimStart_unfold (trimStart s)). by rewrite trimStart_white_head.
Qed.

(** [trim] gives the empty string exactly when [trimStart] does. *)
Lemma nonempty_trim s : nonempty (trim s) = nonempty (trimStart s).
Proof.
  unfold trim. destruct (trimStart s) as [|c r] eqn:E; [done|].
  cbn [trimEnd]. unfold blank. rewrite <- E, trimStart_idemp, E. done.
Qed.

Lemma exponent_rest_value s : (exponent_rest s).1 = exponent s.
Proof.
  unfold exponent_rest, exponent. destruct s as [|c r]; [done|].
  destruct (Ascii.eqb c "e" || Ascii.eqb c "E")%bool; [|done].
  destruct (strip_sign r) as [negative r'].
  destruct (digits 0 0 r') as [[v len] rest]. by destruct len.
Qed.

Lemma unsigned_literal_rest_value u :
  fst <$> unsigned_literal_rest u = unsigned_literal u.
Proof.
  unfold unsigned_literal_rest, unsigned_literal.
  destruct (starts_with "Infinity" u); [done|].
  destruct (digits 0 0 u) as [[ip ilen] r1].
  destruct (after_point r1) as [r|].
  - destruct (digits ip 0 r) as [[m flen] r2].
    destruct ilen, flen; try done;
      rewrite <- exponent_rest_value;
      by destruct (exponent_rest _).
  - destruct ilen; [done|].
    rewrite <- exponent_rest_value. by destruct (exponent_rest _).
Qed.

(** On a string whose decimal literal is followed by white space only, the
    conversion of a comparison and [parseFloat] read the same number. *)
Lemma StringToNumber_parseFloat s v rest :
  unsigned_literal_rest (strip_sign (trimStart s)).2 = Some (v, rest) →
  blank rest = true →
  StringToNumber s = parseFloat s.
Proof.
  intros Hu Hb. unfold StringToNumber, parseFloat.
  pose proof (unsigned_literal_rest_value (strip_sign (trimStart s)).2) as Hv.
  rewrite Hu in Hv. simpl in Hv.
  destruct (nonempty (trimStart s)) eqn:Hn; simpl.
  - destruct (strip_sign (trimStart s)) as [negative u]. simpl in *.
    rewrite Hu, Hb, <- Hv. done.
  - destruct (trimStart s); [|done]. simpl in Hu. done.
Qed.

Section ProfileFormFacts.

Import ProfileForm.

Lemma textOk_iff s : textOk s ↔ nonempty (trim s) = true.
Proof.
  unfold textOk. rewrite nonempty_trim. by destruct (trimStart s).
Qed.

Lemma numberOk_iff v : numberOk v ↔ notPositive v = false.
Proof.
  unfold numberOk, notPositive. rewrite orb_false_iff, negb_false_iff.
  destruct v as [n|s]; [done|]. unfold Coerce.lessOrEqual. simpl. done.
Qed.

Lemma addError_empty cond key message (m : gmap string string) :
  addError cond key message m = ∅ ↔ cond = false ∧ m = ∅.
Proof.
  unfold addError. destruct cond.
  - split; [intros H; by apply insert_non_empty in H|by intros [? _]].
  - by split; [|intros [_ ?]].
Qed.

Lemma addError_lookup cond key message (m : gmap string string) k :
  addError cond key message m !! k
  = if cond && bool_decide (key = k) then Some message else m !! k.
Proof.
  unfold addError. destruct cond; simpl; [|done].
  case_bool_decide as E.
  - subst. apply lookup_insert_eq.
  - by apply lookup_insert_ne.
Qed.

Lemma validateProfile_spec_aux st :
  profile (validateProfile st).1 = profile st
  ∧ view (validateProfile st).1 = view st
  ∧ ((validateProfile st).2 = true ↔ errors (validateProfile st).1 = ∅)
  ∧ match profile st with
    | None =>
        (validateProfile st).2 = false
        ∧ errors (validateProfile st).1
          = {["form" := "Por favor completa tu perfil."]}
    | Some p =>
        ((validateProfile st).2 = true
         ↔ textOk (name p) ∧ textOk (objective p) ∧ numberOk (age p)
           ∧ numberOk (initialWeight p) ∧ numberOk (weightGoal p))
        ∧ (is_Some (errors (validateProfile st).1 !! "name")
           ↔ ¬ textOk (name p))
        ∧ (is_Some (errors (validateProfile st).1 !! "objective")
           ↔ ¬ textOk (objective p))
        ∧ (is_Some (errors (validateProfile st).1 !! "age")
           ↔ ¬ numberOk (age p))
        ∧ (is_Some (errors (validateProfile st).1 !! "initialWeight")
           ↔ ¬ numberOk (initialWeight p))
        ∧ (is_Some (errors (validateProfile st).1 !! "weightGoal")
           ↔ ¬ numberOk (weightGoal p))
        ∧ errors (validateProfile st).1 !! "form" = None
    end.
Proof.
  unfold validateProfile. destruct (profile st) as [p|] eqn:Hp; simpl.
  - rewrite !textOk_iff, !numberOk_iff.
    split; [done|]. split; [done|].
    rewrite bool_decide_eq_true, map_size_empty_iff.
    split; [done|]. rewrite !addError_empty, !addError_lookup, !lookup_empty.
    rewrite !negb_false_iff.
    repeat match goal with
           | |- context [bool_decide (?a = ?b)] =>
               let v := eval vm_compute in (bool_decide (a = b)) in
               change (bool_decide (a = b)) with v
           end.
    rewrite ?andb_false_r, ?andb_true_r.
    assert (∀ (c : bool) (m : string),
              is_Some (if c then Some m else None) ↔ c ≠ false) as Hc.
    { intros [] m; split; intros H; try done; try (by eexists); by destruct H. }
    rewrite !Hc.
    assert (∀ b : bool, negb b ≠ false ↔ b ≠ true) as Hn by (by intros []).
    rewrite !Hn. tauto.
  - split; [done|]. split; [done|]. split; [|done].
    split; [done|]. intros H. by apply map_non_empty_singleton in H.
Qed.

(** X18: [validateProfile] changes neither the profile nor the view, and
    returns true exactly when it leaves no error.  Without a profile it
    returns false with the one error of the form.  With a profile it returns
    true exactly when the name and the objective hold more than white space
    and the age and the two weights are truthy and not less than or equal to
    0; every field that fails, and no other, has its error. *)
Theorem validateProfile_spec st :
  profile (validateProfile st).1 = profile st
  ∧ view (validateProfile st).1 = view st
  ∧ ((validateProfile st).2 = true ↔ errors (validateProfile st).1 = ∅)
  ∧ match profile st with
    | None =>
        (validateProfile st).2 = false
        ∧ errors (validateProfile st).1
          = {["form" := "Por favor completa tu perfil."]}
    | Some p =>
        ((validateProfile st).2 = true
         ↔ textOk (name p) ∧ textOk (objective p) ∧ numberOk (age p)
           ∧ numberOk (initialWeight p) ∧ numberOk (weightGoal p))
        ∧ (is_Some (errors (validateProfile st).1 !! "name")
           ↔ ¬ textOk (name p))
        ∧ (is_Some (errors (validateProfile st).1 !! "objective")
           ↔ ¬ textOk (objective p))
        ∧ (is_Some (errors (validateProfile st).1 !! "age")
           ↔ ¬ numberOk (age p))
        ∧ (is_Some (errors (validateProfile st).1 !! "initialWeight")
           ↔ ¬ numberOk (initialWeight p))
        ∧ (is_Some (errors (validateProfile st).1 !! "weightGoal")
           ↔ ¬ numberOk (weightGoal p))
        ∧ errors (validateProfile st).1 !! "form" = None
    end.
Proof. apply validateProfile_spec_aux. Qed.

(** X19: [handleProfileSave] never changes the profile.  When the
    validation passes it opens the tracker with no error left, and [App]
    stops showing the profile screen; when it fails the view stays, at least
    one error is set, and the screen shown is the one shown before. *)
Theorem handleProfileSave_opens_tracker st :
  let ok := (validateProfile st).2 in
  profile (handleProfileSave st) = profile st
  ∧ (ok = true →
     view (handleProfileSave st) = TrackerView
     ∧ errors (handleProfileSave st) = ∅
     ∧ showsProfileScreen (handleProfileSave st) = false)
  ∧ (ok = false →
     view (handleProfileSave st) = view st
     ∧ errors (handleProfileSave st) ≠ ∅
     ∧ showsProfileScreen (handleProfileSave st) = showsProfileScreen st).
Proof.
  intros ok. subst ok.
  destruct (validateProfile_spec_aux st) as (Hp & Hv & He & Hcase).
  unfold handleProfileSave.
  destruct (validateProfile st) as [st' b] eqn:E. simpl in *.
  split; [by destruct b|]. split; intros ->; simpl.
  - split; [done|]. split; [by apply He|].
    unfold showsProfileScreen. simpl. rewrite Hp.
    destruct (profile st); [done|]. by destruct Hcase.
  - split; [done|]. split.
    + intros Hempty. apply He in Hempty. done.
    + unfold showsProfileScreen. by rewrite Hp, Hv.
Qed.

Lemma handleProfileSave_opens_tracker_witness :
  view (handleProfileSave
          {| profile := None; view := ProfileView; errors := ∅ |})
  = ProfileView
  ∧ errors (handleProfileSave
              {| profile := None; view := ProfileView; errors := ∅ |}) ≠ ∅
  ∧ showsProfileScreen
      (handleProfileSave
         {| profile := None; view := ProfileView; errors := ∅ |})
    = showsProfileScreen
        {| profile := None; view := ProfileView; errors := ∅ |}.
Proof.
  apply (handleProfileSave_opens_tracker
           {| profile := None; view := ProfileView; errors := ∅ |}).
  reflexivity.
Defined.

Lemma fill_fields changes st :
  (∀ p, profile st = Some p →
     formField (age p) ∧ formField (initialWeight p)
     ∧ formField (weightGoal p)) →
  ∀ p, profile (fill changes st) = Some p →
    formField (age p) ∧ formField (initialWeight p) ∧ formField (weightGoal p).
Proof.
  revert st. induction changes as [|[f v] changes IH]; intros st Hst; [done|].
  simpl. apply IH. intros p Hp. unfold handleProfileChange in Hp. simpl in Hp.
  assert (formField (age (default initialProfile (profile st)))
          ∧ formField (initialWeight (default initialProfile (profile st)))
          ∧ formField (weightGoal (default initialProfile (profile st))))
    as (Ha & Hi & Hg).
  { destruct (profile st) as [q|]; simpl; [by apply Hst|].
    repeat split; by left. }
  injection Hp as <-.
  destruct f; simpl; repeat split; try done; right; by eexists.
Qed.

(** X20: a profile filled through the form from nothing and accepted by
    [validateProfile] holds its age and its two weights as strings, not as
    numbers: the texts typed, not empty, the two weights reading as numbers
    that are not less than or equal to 0. *)
Theorem saved_profile_holds_strings changes :
  let st :=
    fill changes {| profile := None; view := ProfileView; errors := ∅ |} in
  (validateProfile st).2 = true →
  ∃ p sa si sg,
    profile st = Some p
    ∧ age p = VStr sa ∧ initialWeight p = VStr si ∧ weightGoal p = VStr sg
    ∧ sa ≠ ""%string ∧ si ≠ ""%string ∧ sg ≠ ""%string
    ∧ JSNumber.le (StringToNumber si) zero = false
    ∧ JSNumber.le (StringToNumber sg) zero = false.
Proof.
  intros st Hok.
  pose proof (fill_fields changes
                {| profile := None; view := ProfileView; errors := ∅ |}
                ltac:(done)) as Hfill.
  fold st in Hfill. clearbody st.
  destruct (validateProfile_spec_aux st) as (_ & _ & _ & Hcase).
  destruct (profile st) as [p|] eqn:Hp.
  2: { destruct Hcase as [Hfalse _]. rewrite Hfalse in Hok. discriminate. }
  destruct Hcase as (Hiff & _). apply Hiff in Hok.
  destruct Hok as (_ & _ & Ha & Hi & Hg).
  destruct (Hfill p eq_refl) as (Fa & Fi & Fg).
  assert (∀ v, formField v → numberOk v →
            ∃ s, v = VStr s ∧ s ≠ ""%string
                 ∧ JSNumber.le (StringToNumber s) zero = false)
    as Hstr.
  { intros v [->|[s ->]] [Ht Hle]; [done|].
    exists s. split; [done|]. split; [by destruct s|done]. }
  destruct (Hstr _ Fa Ha) as (sa & Ea & Na & _).
  destruct (Hstr _ Fi Hi) as (si & Ei & Ni & Li).
  destruct (Hstr _ Fg Hg) as (sg & Eg & Ng & Lg).
  exists p, sa, si, sg. by repeat split.
Qed.

Lemma saved_profile_holds_strings_witness :
  ∃ p sa si sg,
    profile
      (fill [(Name, "Ana"); (Age, "30"); (Objective, "fuerza");
             (InitialWeight, "80"); (WeightGoal, "70")]
         {| profile := None; view := ProfileView; errors := ∅ |})
    = Some p
    ∧ age p = VStr sa ∧ initialWeight p = VStr si ∧ weightGoal p = VStr sg
    ∧ sa ≠ ""%string ∧ si ≠ ""%string ∧ sg ≠ ""%string
    ∧ JSNumber.le (StringToNumber si) zero = false
    ∧ JSNumber.le (StringToNumber sg) zero = false.
Proof.
  apply (saved_profile_holds_strings
           [(Name, "Ana"); (Age, "30"); (Objective, "fuerza");
            (InitialWeight, "80"); (WeightGoal, "70")]).
  vm_compute. reflexivity.
Defined.

(** X24: the effect [App] runs once after mounting changes neither the
    profile nor the errors and never leaves the tracker; it opens the
    tracker exactly when there is a profile with a name that is not empty.
    A profile that [validateProfile] accepts has such a name: with it the
    effect opens the tracker whatever view and errors the state has, and
    [App] does not show the profile screen. *)
Theorem mountEffect_after_valid_profile st :
  profile (mountEffect st) = profile st
  ∧ errors (mountEffect st) = errors st
  ∧ (view st = TrackerView → view (mountEffect st) = TrackerView)
  ∧ (view (mountEffect st) = TrackerView
     ↔ view st = TrackerView
       ∨ ∃ p, profile st = Some p ∧ nonempty (name p) = true)
  ∧ ((validateProfile st).2 = true →
     ∀ v e,
       let st' :=
         mountEffect {| profile := profile st; view := v; errors := e |} in
       view st' = TrackerView ∧ showsProfileScreen st' = false).
Proof.
  unfold mountEffect, showsProfileScreen.
  destruct (validateProfile_spec_aux st) as (_ & _ & _ & Hcase).
  destruct (profile st) as [p|] eqn:Hp; cbn [profile view errors].
  - assert ((validateProfile st).2 = true → nonempty (name p) = true) as Hn.
    { intros Hok. destruct Hcase as (Hiff & _). apply Hiff in Hok.
      destruct Hok as (Hn & _). unfold textOk in Hn.
      destruct (name p); [|done]. by destruct Hn. }
    destruct (nonempty (name p)) eqn:En; cbn [profile view errors].
    + split; [done|]. split; [done|]. split; [done|]. split.
      * split; [|done]. intros _. right. by exists p.
      * by intros _ v e.
    + split; [done|]. split; [done|]. split; [done|]. split.
      * split; [by left|]. intros [H|(q & [= <-] & Hq)]; [done|congruence].
      * intros Hok. specialize (Hn Hok). done.
  - split; [done|]. split; [done|]. split; [done|]. split.
    + split; [by left|]. by intros [H|(q & Hq & _)].
    + intros Hok. destruct Hcase as [Hfalse _]. congruence.
Qed.

Lemma mountEffect_after_valid_profile_witness :
  let st :=
    fill [(Name, "Ana"); (Age, "30"); (Objective, "fuerza");
          (InitialWeight, "80"); (WeightGoal, "70")]
      {| profile := None; view := ProfileView; errors := ∅ |} in
  let st' :=
    mountEffect {| profile := profile st; view := ProfileView; errors := ∅ |}
  in
  view st' = TrackerView ∧ showsProfileScreen st' = false.
Proof.
  intros st.
  apply (proj2 (proj2 (proj2 (proj2 (mountEffect_after_valid_profile st))))).
  vm_compute. reflexivity.
Defined.

End ProfileFormFacts.

(** ** [calculateProgress] on the values a saved profile holds *)

Section RuntimeProgress.

Context (NumberToString : number → string).

(** X22: with the initial weight and the goal held as strings, as the form
    leaves them, [calculateProgress] gives the result it gives on their
    numbers whenever the two strings are equal, and in order, exactly when
    their numbers are. *)
Theorem calculateProgress_runtime_strings si sg c :
  String.eqb si sg
  = JSNumber.strict_eq (StringToNumber si) (StringToNumber sg) →
  String.ltb si sg = JSNumber.lt (StringToNumber si) (StringToNumber sg) →
  calculateProgress NumberToString (VStr si) (VNum c) (VStr sg)
  = liftProgress
      (calculateProgress NumberToString (StringToNumber si) c
         (StringToNumber sg)).
Proof.
  intros Heq Hlt. unfold calculateProgress, liftProgress.
  cbn [num_eq num_gt num_ge num_le num_sub num_mul num_div num_abs num_min
       num_max num_lit num_value runtime_ops exact_ops
       Coerce.strictEquals Coerce.greaterThan Coerce.greaterOrEqual
       Coerce.lessOrEqual ToNumber].
  rewrite Heq, Hlt. unfold JSNumber.gt.
  destruct (JSNumber.strict_eq (StringToNumber si) (StringToNumber sg));
    [reflexivity|].
  destruct (JSNumber.lt (StringToNumber si) (StringToNumber sg));
    cbn [progress progressText]; reflexivity.
Qed.

Local Open Scope Q_scope.

(** X23: with the initial weight and the goal held as strings,
    [calculateProgress] takes the direction of the goal from the order of
    the strings.  When that order is the reverse of the order of the numbers
    (as with 95 and 105), a current weight on the way to the goal, or past
    it, gives a progress of 0. *)
Theorem calculateProgress_runtime_string_order si sg i g c :
  StringToNumber si = Num i → StringToNumber sg = Num g →
  (i < g ∧ String.ltb si sg = false ∧ i <= c)
  ∨ (g < i ∧ String.ltb si sg = true ∧ c <= i) →
  ∃ y, progress (calculateProgress NumberToString
                   (VStr si) (VNum (Num c)) (VStr sg))
       = VNum (Num y)
       ∧ y == 0.
Proof.
  intros Hi Hg Hcase.
  assert (String.eqb si sg = false) as Hne.
  { apply String.eqb_neq. intros ->. rewrite Hi in Hg. injection Hg as ->.
    destruct Hcase as [[? _]|[? _]]; lra. }
  unfold calculateProgress.
  cbn [num_eq num_gt num_ge num_le num_sub num_mul num_div num_abs num_min
       num_max num_lit num_value runtime_ops
       Coerce.strictEquals Coerce.greaterThan Coerce.greaterOrEqual
       Coerce.lessOrEqual ToNumber].
  rewrite Hne, Hi, Hg.
  destruct Hcase as [(Hig & -> & Hc)|(Hig & -> & Hc)];
    cbn [progress sub neg add abs div mul ToNumber].
  - assert (Hd : Qabs (g + - i) == g - i) by (rewrite Qabs_pos; lra).
    assert (Qeq_bool (Qabs (g + - i)) 0 = false) as ->.
    { apply not_true_is_false. rewrite Qeq_bool_iff. lra. }
    destruct (clamp_Num ((i + - c) / Qabs (g + - i) * inject_Z 100))
      as (y & Hy & Hr).
    exists y. split; [f_equal; exact Hy|].
    destruct (ratio_sign (i + - c) (Qabs (g + - i))) as (H1 & _); [lra|].
    change (inject_Z 100) with 100 in *. specialize (H1 ltac:(lra)). lra.
  - assert (Hd : Qabs (g + - i) == i - g) by (rewrite Qabs_neg; lra).
    assert (Qeq_bool (Qabs (g + - i)) 0 = false) as ->.
    { apply not_true_is_false. rewrite Qeq_bool_iff. lra. }
    destruct (clamp_Num ((c + - i) / Qabs (g + - i) * inject_Z 100))
      as (y & Hy & Hr).
    exists y. split; [f_equal; exact Hy|].
    destruct (ratio_sign (c + - i) (Qabs (g + - i))) as (H1 & _); [lra|].
    change (inject_Z 100) with 100 in *. specialize (H1 ltac:(lra)). lra.
Qed.

End RuntimeProgress.

Lemma calculateProgress_runtime_strings_witness :
  calculateProgress (λ _, ""%string) (VStr "80") (VNum (Num 75)) (VStr "70")
  = liftProgress
      (calculateProgress (λ _, ""%string) (StringToNumber "80") (Num 75)
         (StringToNumber "70")).
Proof.
  apply (calculateProgress_runtime_strings (λ _, ""%string) "80" "70"
           (Num 75)); reflexivity.
Defined.

Lemma calculateProgress_runtime_string_order_witness :
  ∃ y, progress (calculateProgress (λ _, ""%string)
                   (VStr "95") (VNum (Num 100)) (VStr "105"))
       = VNum (Num y)
       ∧ (y == 0)%Q.
Proof.
  apply (calculateProgress_runtime_string_order (λ _, ""%string)
           "95" "105" 95 105 100); [reflexivity|reflexivity|].
  left. split; [reflexivity|]. split; [reflexivity|].
  unfold Qle; simpl; lia.
Defined.
